(** * puzzle-solver web front end: the Sudoku upload widget

    A shallow embedding of

    - [web/src/pages/Sudoku.tsx]                (the page: [processImageInWasm], [handleImage]),
    - [web/src/components/SudokuUploader.tsx]   (the uploader: [downscaleImage], [handleFiles],
                                                 the preview-URL effect and clean-up),
    - the one-file variant of the uploader, which holds the same three
      functions in a single component (module [Monolith] below),

    followed by the properties proved about them.

    Conventions.  Signals and closure variables live in one record [State]
    together with the part of the browser the code talks to (object URLs,
    abort controllers, the console, the calls made to the processing
    function).  An [async] function is cut at its [await]s: each piece is a
    state transformer in the monad [M], and the promise it is waiting for is
    kept in [pending] until the event loop settles it. *)

From Stdlib Require Import ZArith NArith QArith Qround Qminmax Qpower Lqa.
From Stdlib Require Import List String Ascii Bool Lia DecimalString DecimalPos DecimalN SpecFloat.
Import ListNotations.

Local Open Scope Z_scope.

(* ================================================================== *)
(** ** JavaScript values *)
(* ================================================================== *)

(** A [Blob] (a [File] is a [Blob]).  [ref] is the identity of the object:
    two blobs are the same object exactly when their [ref]s agree. *)
Record Blob : Type := mkBlob {
  ref : N;
  type : string;
  size : N
}.

(** A thrown value, as far as the handlers look at it: [e?.name] and
    [e?.message] ([None] is [undefined]). *)
Record Thrown : Type := mkThrown {
  name : option string;
  message : option string
}.

(** [new DOMException(message, name)] *)
Definition DOMException (msg nm : string) : Thrown :=
  {| name := Some nm; message := Some msg |}.

(** [new TypeError(message)] and friends: [name] is the class name. *)
Definition Error (nm msg : string) : Thrown :=
  {| name := Some nm; message := Some msg |}.

(** How an awaited promise settles. *)
Inductive Settled (A : Type) : Type :=
| Fulfilled (v : A)
| Rejected (e : Thrown).
Arguments Fulfilled {A} v.
Arguments Rejected {A} e.

(** [s.startsWith(p)] *)
Definition startsWith (s p : string) : bool := String.prefix p s.

(** [e?.name === nm] *)
Definition name_is (e : Thrown) (nm : string) : bool :=
  match name e with
  | Some n => String.eqb n nm
  | None => false
  end.

(** [e?.message || fallback]: an absent or empty message is falsy. *)
Definition message_or (e : Thrown) (fallback : string) : string :=
  match message e with
  | Some EmptyString => fallback
  | Some m => m
  | None => fallback
  end.

(** Decimal text of a non-negative integer, as a template literal or
    [toFixed(0)] prints it (integers below 10^21 print without exponent). *)
Definition toString (n : N) : string := NilZero.string_of_uint (N.to_uint n).

(* ================================================================== *)
(** ** JavaScript numbers *)
(* ================================================================== *)

(** A Number is an IEEE 754 binary64 value.  The finite ones are rationals,
    and every arithmetic operation returns the exact result rounded to the
    nearest value with a 53-bit significand, ties to the even significand.
    [binary64] is that rounding, for magnitudes in the normal range (all the
    numbers of this program are pixel counts below 2^32 and their ratios,
    so NaN, the infinities and the subnormal numbers do not arise). *)

(** The exponent [e] with [2^e <= x < 2^(e+1)], for [x > 0]. *)
Definition ilog2 (x : Q) : Z :=
  let k := Z.log2 (Qnum x) - Z.log2 (Zpos (Qden x)) in
  if Qle_bool (2 ^ k) x then k else k - 1.

(** Nearest integer, ties to even. *)
Definition round_half_even (x : Q) : Z :=
  let f := Qfloor x in
  match (x - inject_Z f ?= 1 # 2)%Q with
  | Lt => f
  | Gt => f + 1
  | Eq => if Z.even f then f else f + 1
  end.

(** Spacing of the binary64 values around [x > 0]. *)
Definition ulp (x : Q) : Q := (2 ^ (ilog2 x - 52))%Q.

Definition binary64 (x : Q) : Q :=
  match (x ?= 0)%Q with
  | Eq => 0%Q
  | Gt => (inject_Z (round_half_even (x / ulp x)) * ulp x)%Q
  | Lt => (- (inject_Z (round_half_even (- x / ulp (- x))) * ulp (- x)))%Q
  end.

(** The largest binary64 value below 1: 1 - 2^-53. *)
Definition below_one : Q := 9007199254740991 # 9007199254740992.

(** [x / y] and [x * y] on Numbers. *)
Definition js_div (x y : Q) : Q := binary64 (x / y).
Definition js_mul (x y : Q) : Q := binary64 (x * y).

(** [Math.min], [Math.max] are exact; [Math.round] is the nearest integer,
    ties towards +infinity. *)
Definition Math_min (x y : Q) : Q := Qmin x y.
Definition Math_max (x y : Q) : Q := Qmax x y.
Definition Math_round (x : Q) : Z := Qfloor (x + (1 # 2)).

(** [x === y] on Numbers. *)
Definition strict_eq (x y : Q) : bool := Qeq_bool x y.

(** [x.toFixed(0)] for [x >= 0]: the nearest integer (the larger one on a
    tie), in decimal. *)
Definition toFixed0 (x : Q) : string := toString (Z.to_N (Qfloor (x + (1 # 2)))).

(** *** The same operations in the Standard Library's IEEE 754

    [SpecFloat] is the library's executable definition of IEEE 754
    arithmetic; at precision 53 and maximal exponent 1024 it is binary64.
    It serves to test [binary64] on samples. *)

Definition SF_of_Z (z : Z) : spec_float := binary_normalize 53 1024 z 0 false.

Definition Q_of_SF (f : spec_float) : option Q :=
  match f with
  | S754_zero _ => Some 0%Q
  | S754_finite sign m e =>
      Some ((if sign then -1 else 1) * inject_Z (Zpos m) * 2 ^ e)%Q
  | _ => None
  end.

(** [c * (a / b)] computed both ways. *)
Definition same_as_SpecFloat (t : Z * Z * Z) : bool :=
  let '(a, b, c) := t in
  let q := js_div (inject_Z a) (inject_Z b) in
  let f := SFdiv 53 1024 (SF_of_Z a) (SF_of_Z b) in
  match Q_of_SF f, Q_of_SF (SFmul 53 1024 (SF_of_Z c) f) with
  | Some x, Some y => Qeq_bool x q && Qeq_bool y (js_mul (inject_Z c) q)
  | _, _ => false
  end.

(* ================================================================== *)
(** ** State of the component and of the browser around it *)
(* ================================================================== *)

(** An object URL: the [n]-th call of [URL.createObjectURL] returns the
    URL numbered [n]; they are non-empty strings, hence truthy. *)
Definition Url : Type := N.

(** What an [async] function is suspended on. *)
Inductive Task : Type :=
| AwaitDownscale (file : Blob) (url : Url)
    (** [handleFiles] at [await downscaleImage(file)]; [url] is the object
        URL [downscaleImage] made for itself before its first [await] *)
| AwaitProcess (jobId : N).
    (** at [await processImageInWasm(image, { signal, jobId })] *)

(** A raster surface made by [downscaleImage], with what was asked of the
    encoder. *)
Record Raster : Type := mkRaster {
  rasterW : Z;
  rasterH : Z;
  rasterType : string;
  rasterQuality : Q
}.

Record State : Type := mkState {
  (* signals *)
  imagePreviewUrl : option Url;
  isProcessing : bool;
  result : string;
  error : string;
  (* closure variables *)
  currentJob : N;
  currentAbort : option N;      (* the controller made for that job id *)
  prev : option Url;            (* what the createEffect callback returned last *)
  (* the browser *)
  objectUrls : N;               (* number of URL.createObjectURL calls so far *)
  revoked : list Url;           (* URL.revokeObjectURL calls, latest first *)
  aborted : list N;             (* controllers whose abort() was called *)
  warnings : list string;       (* console.warn *)
  calls : list (Blob * N);      (* processImageInWasm(image, {jobId}), latest first *)
  rasters : list Raster;        (* canvases created, latest first *)
  (* the event loop *)
  pending : list Task;          (* suspended async calls, latest first *)
  mounted : bool;               (* false once the clean-ups have run *)
  (* history, for stating properties only *)
  previews : list Url           (* every URL imagePreviewUrl has held *)
}.

Definition init : State :=
  {| imagePreviewUrl := None; isProcessing := false;
     result := EmptyString; error := EmptyString;
     currentJob := 0%N; currentAbort := None; prev := None;
     objectUrls := 0%N; revoked := []; aborted := []; warnings := [];
     calls := []; rasters := []; pending := []; mounted := true;
     previews := [] |}.

(** The state the user sees: the preview, the result panel, the error
    banner and the processing banner. *)
Definition visible (s : State) : option Url * string * string * bool :=
  (imagePreviewUrl s, result s, error s, isProcessing s).

(** *** The state monad *)

Definition M (A : Type) : Type := State -> A * State.

Definition ret {A} (a : A) : M A := fun s => (a, s).
Definition bind {A B} (c : M A) (k : A -> M B) : M B :=
  fun s => let (a, s') := c s in k a s'.
Definition exec {A} (c : M A) (s : State) : State := snd (c s).
Definition get {A} (f : State -> A) : M A := fun s => (f s, s).
Definition modify (f : State -> State) : M unit := fun s => (tt, f s).

Declare Scope js_scope.
Delimit Scope js_scope with js.
Notation "x <- c ;; k" := (bind c (fun x => k))
  (at level 61, c at next level, right associativity) : js_scope.
Notation "c ;; k" := (bind c (fun _ => k))
  (at level 61, right associativity) : js_scope.
Local Open Scope js_scope.

Definition when (b : bool) (c : M unit) : M unit := if b then c else ret tt.

(** Field updates. *)
Definition with_imagePreviewUrl (v : option Url) (s : State) : State :=
  mkState v (isProcessing s) (result s) (error s) (currentJob s)
    (currentAbort s) (prev s) (objectUrls s) (revoked s) (aborted s)
    (warnings s) (calls s) (rasters s) (pending s) (mounted s) (previews s).
Definition with_isProcessing (v : bool) (s : State) : State :=
  mkState (imagePreviewUrl s) v (result s) (error s) (currentJob s)
    (currentAbort s) (prev s) (objectUrls s) (revoked s) (aborted s)
    (warnings s) (calls s) (rasters s) (pending s) (mounted s) (previews s).
Definition with_result (v : string) (s : State) : State :=
  mkState (imagePreviewUrl s) (isProcessing s) v (error s) (currentJob s)
    (currentAbort s) (prev s) (objectUrls s) (revoked s) (aborted s)
    (warnings s) (calls s) (rasters s) (pending s) (mounted s) (previews s).
Definition with_error (v : string) (s : State) : State :=
  mkState (imagePreviewUrl s) (isProcessing s) (result s) v (currentJob s)
    (currentAbort s) (prev s) (objectUrls s) (revoked s) (aborted s)
    (warnings s) (calls s) (rasters s) (pending s) (mounted s) (previews s).
Definition with_currentJob (v : N) (s : State) : State :=
  mkState (imagePreviewUrl s) (isProcessing s) (result s) (error s) v
    (currentAbort s) (prev s) (objectUrls s) (revoked s) (aborted s)
    (warnings s) (calls s) (rasters s) (pending s) (mounted s) (previews s).
Definition with_currentAbort (v : option N) (s : State) : State :=
  mkState (imagePreviewUrl s) (isProcessing s) (result s) (error s)
    (currentJob s) v (prev s) (objectUrls s) (revoked s) (aborted s)
    (warnings s) (calls s) (rasters s) (pending s) (mounted s) (previews s).
Definition with_prev (v : option Url) (s : State) : State :=
  mkState (imagePreviewUrl s) (isProcessing s) (result s) (error s)
    (currentJob s) (currentAbort s) v (objectUrls s) (revoked s) (aborted s)
    (warnings s) (calls s) (rasters s) (pending s) (mounted s) (previews s).
Definition with_objectUrls (v : N) (s : State) : State :=
  mkState (imagePreviewUrl s) (isProcessing s) (result s) (error s)
    (currentJob s) (currentAbort s) (prev s) v (revoked s) (aborted s)
    (warnings s) (calls s) (rasters s) (pending s) (mounted s) (previews s).
Definition with_revoked (v : list Url) (s : State) : State :=
  mkState (imagePreviewUrl s) (isProcessing s) (result s) (error s)
    (currentJob s) (currentAbort s) (prev s) (objectUrls s) v (aborted s)
    (warnings s) (calls s) (rasters s) (pending s) (mounted s) (previews s).
Definition with_aborted (v : list N) (s : State) : State :=
  mkState (imagePreviewUrl s) (isProcessing s) (result s) (error s)
    (currentJob s) (currentAbort s) (prev s) (objectUrls s) (revoked s) v
    (warnings s) (calls s) (rasters s) (pending s) (mounted s) (previews s).
Definition with_warnings (v : list string) (s : State) : State :=
  mkState (imagePreviewUrl s) (isProcessing s) (result s) (error s)
    (currentJob s) (currentAbort s) (prev s) (objectUrls s) (revoked s)
    (aborted s) v (calls s) (rasters s) (pending s) (mounted s) (previews s).
Definition with_calls (v : list (Blob * N)) (s : State) : State :=
  mkState (imagePreviewUrl s) (isProcessing s) (result s) (error s)
    (currentJob s) (currentAbort s) (prev s) (objectUrls s) (revoked s)
    (aborted s) (warnings s) v (rasters s) (pending s) (mounted s)
    (previews s).
Definition with_rasters (v : list Raster) (s : State) : State :=
  mkState (imagePreviewUrl s) (isProcessing s) (result s) (error s)
    (currentJob s) (currentAbort s) (prev s) (objectUrls s) (revoked s)
    (aborted s) (warnings s) (calls s) v (pending s) (mounted s) (previews s).
Definition with_pending (v : list Task) (s : State) : State :=
  mkState (imagePreviewUrl s) (isProcessing s) (result s) (error s)
    (currentJob s) (currentAbort s) (prev s) (objectUrls s) (revoked s)
    (aborted s) (warnings s) (calls s) (rasters s) v (mounted s) (previews s).
Definition with_mounted (v : bool) (s : State) : State :=
  mkState (imagePreviewUrl s) (isProcessing s) (result s) (error s)
    (currentJob s) (currentAbort s) (prev s) (objectUrls s) (revoked s)
    (aborted s) (warnings s) (calls s) (rasters s) (pending s) v (previews s).
Definition with_previews (v : list Url) (s : State) : State :=
  mkState (imagePreviewUrl s) (isProcessing s) (result s) (error s)
    (currentJob s) (currentAbort s) (prev s) (objectUrls s) (revoked s)
    (aborted s) (warnings s) (calls s) (rasters s) (pending s) (mounted s) v.

(** *** Signals *)

Definition setIsProcessing (v : bool) : M unit := modify (with_isProcessing v).
Definition setResult (v : string) : M unit := modify (with_result v).
Definition setError (v : string) : M unit := modify (with_error v).

(** *** The browser *)

(** [URL.createObjectURL(blob)]: a URL never handed out before. *)
Definition createObjectURL (_ : Blob) : M Url :=
  fun s => (objectUrls s, with_objectUrls (objectUrls s + 1)%N s).

(** [URL.revokeObjectURL(url)] *)
Definition revokeObjectURL (url : Url) : M unit :=
  modify (fun s => with_revoked (url :: revoked s) s).

(** [console.warn(msg, e)] *)
Definition console_warn (msg : string) : M unit :=
  modify (fun s => with_warnings (msg :: warnings s) s).

(** [currentAbort?.abort()] *)
Definition abort_currentAbort : M unit :=
  c <- get currentAbort ;;
  match c with
  | Some j => modify (fun s => with_aborted (j :: aborted s) s)
  | None => ret tt
  end.

(** Suspend on a promise. *)
Definition await (t : Task) : M unit :=
  modify (fun s => with_pending (t :: pending s) s).

(* ================================================================== *)
(** ** The preview URL: [createEffect] and [onCleanup]
       (SudokuUploader.tsx 77-86, the same lines in the one-file uploader) *)
(* ================================================================== *)

Definition url_eqb (a : Url) (b : option Url) : bool :=
  match b with
  | Some u => N.eqb a u
  | None => false
  end.

(** The effect callback.  It runs once on mount with [prev = null] and then
    after every write to the signal. *)
Definition previewEffect : M unit :=
  current <- get imagePreviewUrl ;;
  p <- get prev ;;
  match p with
  | Some u => when (negb (url_eqb u current)) (revokeObjectURL u)
  | None => ret tt
  end ;;
  modify (with_prev current).

(** [setImagePreviewUrl(objectUrl)]: write the signal, then the effect runs. *)
Definition setImagePreviewUrl (objectUrl : Url) : M unit :=
  modify (fun s => with_previews (objectUrl :: previews s)
                     (with_imagePreviewUrl (Some objectUrl) s)) ;;
  previewEffect.

(** The clean-up that releases the URL still held. *)
Definition previewCleanup : M unit :=
  current <- get imagePreviewUrl ;;
  match current with
  | Some u => revokeObjectURL u
  | None => ret tt
  end.

(* ================================================================== *)
(** ** [downscaleImage] (SudokuUploader.tsx 15-60) *)
(* ================================================================== *)

Record ImageBitmap : Type := mkBitmap {
  width : positive;
  height : positive
}.

(** What the browser answers while one [downscaleImage] call runs. *)
Record Browser : Type := mkBrowser {
  createImageBitmap : Settled ImageBitmap;
    (** [createImageBitmap(await fetch(url).then((r) => r.blob()))] *)
  hasOffscreenCanvas : bool;
    (** [typeof OffscreenCanvas !== 'undefined'] *)
  convertToBlob : Settled Blob;
    (** [c.convertToBlob({ type: mime, quality })] *)
  toBlob : option Blob
    (** the argument [canvas.toBlob] passes to its callback ([None]: null) *)
}.

(** Default arguments. *)
Definition maxSide_default : positive := 1536.
Definition mime_default : string := "image/webp".
Definition quality_default : Q := 92 # 100.

Definition scale_factor (maxSide : positive) (bitmap : ImageBitmap) : Q :=
  Math_min 1 (js_div (inject_Z (Zpos maxSide))
                     (Math_max (inject_Z (Zpos (width bitmap)))
                               (inject_Z (Zpos (height bitmap))))).

Definition targetW (maxSide : positive) (bitmap : ImageBitmap) : Z :=
  Z.max 1 (Math_round (js_mul (inject_Z (Zpos (width bitmap)))
                              (scale_factor maxSide bitmap))).

Definition targetH (maxSide : positive) (bitmap : ImageBitmap) : Z :=
  Z.max 1 (Math_round (js_mul (inject_Z (Zpos (height bitmap)))
                              (scale_factor maxSide bitmap))).

(** [new OffscreenCanvas(w, h)] or a [<canvas>] sized [w] by [h], drawn to
    and handed to the encoder. *)
Definition new_canvas (w h : Z) (mime : string) (quality : Q) : M unit :=
  modify (fun s => with_rasters (mkRaster w h mime quality :: rasters s) s).

(** The call up to its first [await]: line 21. *)
Definition downscaleImage_begin (file : Blob) : M Url := createObjectURL file.

(** The body of the [try], lines 23-56 ([getContext('2d')!] is taken to
    return a context, as the source asserts). *)
Definition downscaleImage_try (file : Blob) (maxSide : positive)
    (mime : string) (quality : Q) (b : Browser) : M (Settled Blob) :=
  match createImageBitmap b with
  | Rejected e => ret (Rejected e)
  | Fulfilled bitmap =>
      let scale := scale_factor maxSide bitmap in
      if strict_eq scale 1 then ret (Fulfilled file)
      else
        new_canvas (targetW maxSide bitmap) (targetH maxSide bitmap) mime quality ;;
        if hasOffscreenCanvas b then ret (convertToBlob b)
        else ret (Fulfilled (match toBlob b with Some blob => blob | None => file end))
  end.

(** The rest of the call: the [try] and then the [finally] of lines 57-59. *)
Definition downscaleImage_end (file : Blob) (maxSide : positive)
    (mime : string) (quality : Q) (url : Url) (b : Browser) : M (Settled Blob) :=
  r <- downscaleImage_try file maxSide mime quality b ;;
  revokeObjectURL url ;;
  ret r.

(* ================================================================== *)
(** ** [processImageInWasm], the stub (Sudoku.tsx 9-27) *)
(* ================================================================== *)

(** The promise the stub awaits, with the timer and the listener its
    executor sets up. *)
Record Wait : Type := mkWait {
  clock : N;                        (* milliseconds since the call *)
  timer : option N;                 (* when setTimeout is due; None once fired or cleared *)
  listening : bool;                 (* the 'abort' listener is registered *)
  signal : option bool;             (* signal?.aborted; None: no signal passed *)
  outcome : option (Settled unit)   (* None while the promise is pending *)
}.

(** A promise settles once: later calls of [resolve] or [reject] do nothing. *)
Definition resolve (w : Wait) : Wait :=
  match outcome w with
  | None => mkWait (clock w) (timer w) (listening w) (signal w) (Some (Fulfilled tt))
  | Some _ => w
  end.

Definition reject (e : Thrown) (w : Wait) : Wait :=
  match outcome w with
  | None => mkWait (clock w) (timer w) (listening w) (signal w) (Some (Rejected e))
  | Some _ => w
  end.

Definition clearTimeout (w : Wait) : Wait :=
  mkWait (clock w) None (listening w) (signal w) (outcome w).

Definition onAbort (w : Wait) : Wait :=
  reject (DOMException "Aborted" "AbortError") (clearTimeout w).

(** The executor, lines 15-25. *)
Definition executor (sig : option bool) : Wait :=
  let w := mkWait 0%N (Some 900%N) false sig None in
  match sig with
  | Some is_aborted =>
      let w := if is_aborted then onAbort w else w in
      mkWait (clock w) (timer w) true (signal w) (outcome w)
  | None => w
  end.

(** What can happen while the stub waits. *)
Inductive Tick : Type :=
| Elapse (ms : N)    (** time passes *)
| Abort.             (** [abort()] is called on the controller of the signal *)

Definition tick (w : Wait) (t : Tick) : Wait :=
  match t with
  | Elapse ms =>
      let now := (clock w + ms)%N in
      let w := mkWait now (timer w) (listening w) (signal w) (outcome w) in
      match timer w with
      | Some due => if (due <=? now)%N then resolve (clearTimeout w) else w
      | None => w
      end
  | Abort =>
      match signal w with
      | Some false =>
          let w := mkWait (clock w) (timer w) (listening w) (Some true) (outcome w) in
          if listening w
          then onAbort (mkWait (clock w) (timer w) false (signal w) (outcome w))
          else w
      | _ => w
      end
  end.

(** The text the stub returns, line 26. *)
Definition stub_text (jobId : N) (imageBlob : Blob) : string :=
  ("WASM stub ✓ (job #" ++ toString jobId ++ "). Bytes: "
     ++ toString (size imageBlob))%string.

(** The call, observed after the ticks [ts]: [None] while it is pending. *)
Definition processImageInWasm (imageBlob : Blob) (sig : option bool)
    (jobId : N) (ts : list Tick) : option (Settled string) :=
  match outcome (fold_left tick ts (executor sig)) with
  | None => None
  | Some (Fulfilled _) => Some (Fulfilled (stub_text jobId imageBlob))
  | Some (Rejected e) => Some (Rejected e)
  end.

(** Time elapsed over a run of ticks. *)
Definition elapsed (ts : list Tick) : N :=
  fold_left (fun t k => match k with Elapse ms => (t + ms)%N | Abort => t end) ts 0%N.

Definition is_Abort (t : Tick) : bool :=
  match t with Abort => true | Elapse _ => false end.

(* ================================================================== *)
(** ** The job sequencer *)
(* ================================================================== *)

(** [const jobId = ++currentJob] *)
Definition next_job : M N :=
  fun s => let j := (currentJob s + 1)%N in (j, with_currentJob j s).

(** Cancel, mint a job, start the processing call and wait for it:
    Sudoku.tsx 39-45, and lines 151-162 of the one-file uploader. *)
Definition submit (image : Blob) : M unit :=
  abort_currentAbort ;;
  jobId <- next_job ;;
  modify (with_currentAbort (Some jobId)) ;;
  setIsProcessing true ;;
  modify (fun s => with_calls ((image, jobId) :: calls s) s) ;;
  await (AwaitProcess jobId).

(** What runs when the awaited call settles: the rest of the [try], the
    [catch] and the [finally]; Sudoku.tsx 46-53, and lines 163-171 of the
    one-file uploader. *)
Definition settled (jobId : N) (r : Settled string) : M unit :=
  match r with
  | Fulfilled res =>
      cur <- get currentJob ;;
      if negb (N.eqb jobId cur) then ret tt      (* return *)
      else setResult res
  | Rejected e =>
      if name_is e "AbortError" then ret tt      (* return *)
      else setError (message_or e "Image processing error")
  end ;;
  (* finally *)
  cur <- get currentJob ;;
  when (N.eqb jobId cur) (setIsProcessing false).

(** [files?.[0]] *)
Definition first_file (files : option (list Blob)) : option Blob :=
  match files with
  | Some (file :: _) => Some file
  | _ => None
  end.

(** Max upload size. *)
Definition MAX_BYTES : N := 10 * 1024 * 1024.

Module Sudoku.
(** pages/Sudoku.tsx *)

(** [handleImage] up to its [await], lines 37-45. *)
Definition handleImage (image : Blob) : M unit :=
  setError EmptyString ;;
  setResult EmptyString ;;
  submit image.

(** [handleImage] from the [await] on, lines 46-53. *)
Definition handleImage_settled : N -> Settled string -> M unit := settled.
End Sudoku.

Module SudokuUploader.
(** components/SudokuUploader.tsx *)

(** [handleFiles] up to its [await], lines 89-110. *)
Definition handleFiles (files : option (list Blob)) : M unit :=
  match first_file files with
  | None => ret tt
  | Some file =>
      if negb (startsWith (type file) "image/") then ret tt
      else if (MAX_BYTES <? size file)%N then ret tt
      else
        objectUrl <- createObjectURL file ;;
        setImagePreviewUrl objectUrl ;;
        url <- downscaleImage_begin file ;;
        await (AwaitDownscale file url)
  end.

(** [handleFiles] from the [await] on, lines 110-116; [r] is how
    [downscaleImage(file)] settled. *)
Definition handleFiles_downscaled (onImage : option (Blob -> M unit))
    (file : Blob) (r : Settled Blob) : M unit :=
  toProcess <- match r with
               | Fulfilled blob => ret blob
               | Rejected e =>
                   console_warn "Downscale failed, using original file" ;;
                   ret file
               end ;;
  match onImage with
  | Some f => f toProcess
  | None => ret tt
  end.

(** The clean-ups, lines 83-86 and 171-173 (the second one only removes
    the paste listener). *)
Definition onCleanup : M unit := previewCleanup.
End SudokuUploader.

Module Monolith.
(** The one-file uploader: the uploader and the job sequencer in one
    component. *)

(** [handleFiles] up to its first [await], lines 122-146. *)
Definition handleFiles (files : option (list Blob)) : M unit :=
  match first_file files with
  | None => ret tt
  | Some file =>
      setError EmptyString ;;
      setResult EmptyString ;;
      if negb (startsWith (type file) "image/") then
        setError "Please upload an image file (JPEG/PNG/WebP)."
      else if (MAX_BYTES <? size file)%N then
        setError ("File is too large (> "
                    ++ toFixed0 (js_div (inject_Z (Z.of_N MAX_BYTES))
                                        (js_mul 1024 1024))
                    ++ " MB).")
      else
        objectUrl <- createObjectURL file ;;
        setImagePreviewUrl objectUrl ;;
        url <- downscaleImage_begin file ;;
        await (AwaitDownscale file url)
  end.

(** From the first [await] to the second, lines 146-162. *)
Definition handleFiles_downscaled (file : Blob) (r : Settled Blob) : M unit :=
  toProcess <- match r with
               | Fulfilled blob => ret blob
               | Rejected e =>
                   console_warn "Downscale failed, using original file" ;;
                   ret file
               end ;;
  submit toProcess.

(** From the second [await] on, lines 163-171. *)
Definition handleFiles_processed : N -> Settled string -> M unit := settled.

(** The clean-ups, lines 112-115 and 226-229. *)
Definition onCleanup : M unit :=
  previewCleanup ;;
  abort_currentAbort.
End Monolith.

(* ================================================================== *)
(** ** The event loop *)
(* ================================================================== *)

(** The two builds of the widget: the page with the uploader component, and
    the one-file uploader. *)
Inductive Build : Type := Split | OneFile.

(** What the outside world tells a suspended call. *)
Inductive Answer : Type :=
| Decoded (b : Browser)             (** the run of [downscaleImage] *)
| Processed (r : Settled string).   (** how [processImageInWasm] settled *)

Inductive Event : Type :=
| Files (files : option (list Blob))
    (** a change, drop or paste hands [files] to [handleFiles] *)
| Settle (k : nat) (a : Answer)
    (** the [k]-th suspended call (latest first) is resumed *)
| Cleanup.
    (** the component is disposed *)

Fixpoint remove_nth {A} (k : nat) (l : list A) : list A :=
  match l, k with
  | [], _ => []
  | _ :: l', O => l'
  | x :: l', S k' => x :: remove_nth k' l'
  end.

Definition handleFiles (b : Build) : option (list Blob) -> M unit :=
  match b with
  | Split => SudokuUploader.handleFiles
  | OneFile => Monolith.handleFiles
  end.

Definition handleFiles_downscaled (b : Build) : Blob -> Settled Blob -> M unit :=
  match b with
  | Split => SudokuUploader.handleFiles_downscaled (Some Sudoku.handleImage)
  | OneFile => Monolith.handleFiles_downscaled
  end.

Definition onCleanup (b : Build) : M unit :=
  match b with
  | Split => SudokuUploader.onCleanup
  | OneFile => Monolith.onCleanup
  end.

(** Resume a suspended call with the answer it was waiting for. *)
Definition resume (b : Build) (t : Task) (a : Answer) : option (M unit) :=
  match t, a with
  | AwaitDownscale file url, Decoded br =>
      Some (r <- downscaleImage_end file maxSide_default mime_default
                                    quality_default url br ;;
            handleFiles_downscaled b file r)
  | AwaitProcess jobId, Processed r => Some (settled jobId r)
  | _, _ => None
  end.

(** One turn of the event loop.  Once the component is disposed its
    listeners are gone (the paste listener is removed by the clean-up, the
    drop zone and the file input leave the document), so no files arrive any
    more; calls that were suspended before still run to their end. *)
Definition step (b : Build) (s : State) (e : Event) : State :=
  match e with
  | Files files => if mounted s then exec (handleFiles b files) s else s
  | Settle k a =>
      match nth_error (pending s) k with
      | Some t =>
          match resume b t a with
          | Some c => exec c (with_pending (remove_nth k (pending s)) s)
          | None => s
          end
      | None => s
      end
  | Cleanup =>
      if mounted s then with_mounted false (exec (onCleanup b) s) else s
  end.

Definition run (b : Build) (s : State) (es : list Event) : State :=
  fold_left (step b) es s.

(* ================================================================== *)
(** ** Acquisition, as the specification words it *)
(* ================================================================== *)

(** "Rejects if: no file present; MIME type does not begin with image/;
    size exceeds a fixed cap (10 MiB)." *)
Definition acquisition_rejects (files : option (list Blob)) : bool :=
  match first_file files with
  | None => true
  | Some file =>
      negb (startsWith (type file) "image/")
      || (10 * 1024 * 1024 <? size file)%N
  end.

(* ================================================================== *)
(** ** Notions used to state the life cycle of the preview URL *)
(* ================================================================== *)

(** The object URLs held by the suspended [downscaleImage] calls. *)
Fixpoint temp_urls (ts : list Task) : list Url :=
  match ts with
  | [] => []
  | AwaitDownscale _ url :: ts' => url :: temp_urls ts'
  | AwaitProcess _ :: ts' => temp_urls ts'
  end.

(** [u] is the URL on display: the component is mounted and the signal
    holds [u]. *)
Definition displayed (s : State) (u : Url) : bool :=
  mounted s && url_eqb u (imagePreviewUrl s).

(** The part of the state that object URLs live in. *)
Definition url_view (s : State)
  : option Url * option Url * N * list Url * list Url * bool * list Url :=
  (imagePreviewUrl s, prev s, objectUrls s, revoked s,
   temp_urls (pending s), mounted s, previews s).

(** What holds of the object URLs in every reachable state. *)
Record Inv (s : State) : Prop := mkInv {
  inv_prev : prev s = imagePreviewUrl s;
  inv_fresh_previews : forall u, In u (previews s) -> (u < objectUrls s)%N;
  inv_fresh_temps :
    forall u, In u (temp_urls (pending s)) -> (u < objectUrls s)%N;
  inv_fresh_revoked : forall u, In u (revoked s) -> (u < objectUrls s)%N;
  inv_nodup : NoDup (previews s ++ temp_urls (pending s));
  inv_temps_live : forall u, In u (temp_urls (pending s)) -> ~ In u (revoked s);
  inv_current :
    match imagePreviewUrl s with
    | Some u => exists rest, previews s = u :: rest
    | None => previews s = []
    end;
  inv_count :
    Forall (fun u => count_occ N.eq_dec (revoked s) u
                     = if displayed s u then 0%nat else 1%nat)
           (previews s)
}.

(* ================================================================== *)
(** ** Drag and drop (SudokuUploader.tsx 67, 74-75, 123-145) *)
(* ================================================================== *)

(** The [isDragging] signal and the [dragDepth] counter. *)
Record Drag : Type := mkDrag {
  isDragging : bool;
  dragDepth : Z
}.

Definition drag_init : Drag := mkDrag false 0.

(** [if (dragDepth++ === 0) setIsDragging(true)] *)
Definition onDragEnter (d : Drag) : Drag :=
  let old := dragDepth d in
  let d := mkDrag (isDragging d) (old + 1) in
  if old =? 0 then mkDrag true (dragDepth d) else d.

(** [if (--dragDepth <= 0) { dragDepth = 0; setIsDragging(false) }] *)
Definition onDragLeave (d : Drag) : Drag :=
  let d := mkDrag (isDragging d) (dragDepth d - 1) in
  if dragDepth d <=? 0 then mkDrag false 0 else d.

(** [onDragOver] only calls [preventDefault]. *)
Definition onDragOver (d : Drag) : Drag := d.

(** [onDrop]: [dragDepth = 0; setIsDragging(false); handleFiles(files)]. *)
Definition onDrop (b : Build) (files : option (list Blob))
    (ds : Drag * State) : Drag * State :=
  (mkDrag false 0, exec (handleFiles b files) (snd ds)).

Inductive DragEvent : Type :=
| DragEnter
| DragLeave
| DragOver
| Drop (files : option (list Blob)).

Definition drag_step (b : Build) (ds : Drag * State) (e : DragEvent)
  : Drag * State :=
  match e with
  | DragEnter => (onDragEnter (fst ds), snd ds)
  | DragLeave => (onDragLeave (fst ds), snd ds)
  | DragOver => (onDragOver (fst ds), snd ds)
  | Drop files => onDrop b files ds
  end.

Definition drag_run (b : Build) (ds : Drag * State) (es : list DragEvent)
  : Drag * State :=
  fold_left (drag_step b) es ds.

(** Enters minus leaves over a run of drag events. *)
Fixpoint drag_balance (es : list DragEvent) : Z :=
  match es with
  | [] => 0
  | DragEnter :: es' => 1 + drag_balance es'
  | DragLeave :: es' => -1 + drag_balance es'
  | _ :: es' => drag_balance es'
  end.

Definition is_Drop (e : DragEvent) : bool :=
  match e with Drop _ => true | _ => false end.

(* ================================================================== *)
(** ** Paste (SudokuUploader.tsx 154-166) *)
(* ================================================================== *)

(** A [DataTransferItem], as far as [onPaste] looks at it. *)
Record DataTransferItem : Type := mkItem {
  kind : string;
  itemType : string;               (* it.type *)
  getAsFile : option Blob          (* None: null *)
}.

(** [it.kind === 'file' && it.type.startsWith('image/')] *)
Definition is_image_file (it : DataTransferItem) : bool :=
  String.eqb (kind it) "file" && startsWith (itemType it) "image/".

(** The [for ... of] loop with its [break]. *)
Fixpoint onPaste_items (b : Build) (items : list DataTransferItem) : M unit :=
  match items with
  | [] => ret tt
  | it :: rest =>
      if is_image_file it then
        match getAsFile it with
        | Some f => handleFiles b (Some [f])
        | None => ret tt
        end                                    (* break *)
      else onPaste_items b rest
  end.

(** [onPaste]; [items] is [e.clipboardData?.items] ([None]: absent). *)
Definition onPaste (b : Build) (items : option (list DataTransferItem)) : M unit :=
  match items with
  | None => ret tt
  | Some l => onPaste_items b l
  end.

(* ================================================================== *)
(** ** Notions used to state the properties of the job sequencer *)
(* ================================================================== *)

(** The job ids of the suspended processing calls. *)
Fixpoint job_ids (ts : list Task) : list N :=
  match ts with
  | [] => []
  | AwaitProcess j :: ts' => j :: job_ids ts'
  | AwaitDownscale _ _ :: ts' => job_ids ts'
  end.

(** [n, n-1, ..., 1] *)
Fixpoint count_down (n : nat) : list N :=
  match n with
  | O => []
  | S k => N.of_nat (S k) :: count_down k
  end.

(** The part of the state the job sequencer works on. *)
Definition job_view (s : State)
  : bool * N * option N * list N * list N * list N :=
  (isProcessing s, currentJob s, currentAbort s, aborted s,
   map snd (calls s), job_ids (pending s)).

(** What holds of the jobs in every reachable state. *)
Record JobInv (s : State) : Prop := mkJobInv {
  job_calls : map snd (calls s) = count_down (N.to_nat (currentJob s));
  job_controller :
    currentAbort s = if (currentJob s =? 0)%N then None else Some (currentJob s);
  job_aborted_bound :
    forall j, In j (aborted s) -> (1 <= j <= currentJob s)%N;
  job_superseded :
    forall j, (1 <= j < currentJob s)%N -> In j (aborted s);
  job_pending_bound :
    forall j, In j (job_ids (pending s)) -> (1 <= j <= currentJob s)%N;
  job_pending_nodup : NoDup (job_ids (pending s));
  job_flag :
    isProcessing s = existsb (N.eqb (currentJob s)) (job_ids (pending s))
}.

(** An event that the repository's stub can produce: its processing calls
    fulfil or are cancelled. *)
Definition stub_like (e : Event) : bool :=
  match e with
  | Settle _ (Processed (Rejected x)) => name_is x "AbortError"
  | _ => true
  end.

(** Every object URL made so far is accounted for, and none was revoked
    twice. *)
Record Released (s : State) : Prop := mkReleased {
  rel_nodup : NoDup (revoked s);
  rel_cover :
    forall u, (u < objectUrls s)%N ->
              In u (previews s) \/ In u (temp_urls (pending s)) \/ In u (revoked s)
}.

(* ================================================================== *)
(** ** Notions used to state the properties of the stub's text *)
(* ================================================================== *)

(** ['0'] to ['9'] *)
Definition is_digit (c : ascii) : bool :=
  (48 <=? nat_of_ascii c)%nat && (nat_of_ascii c <=? 57)%nat.

Fixpoint all_digits (s : string) : bool :=
  match s with
  | EmptyString => true
  | String c s' => is_digit c && all_digits s'
  end.

(* ================================================================== *)
(** * Properties *)
(* ================================================================== *)

(** ** The job sequencer *)

Local Ltac run_monad :=
  cbv [exec bind ret get modify when setResult setError setIsProcessing
       Sudoku.handleImage_settled Monolith.handleFiles_processed settled];
  cbn [snd fst].

(** A stale job that succeeds leaves the whole state as it was. *)
Lemma stale_success_discarded (jobId : N) (res : string) (s : State) :
  jobId <> currentJob s ->
  exec (settled jobId (Fulfilled res)) s = s.
Proof.
  intros Hstale. run_monad.
  apply N.eqb_neq in Hstale. rewrite Hstale. cbn. rewrite Hstale. reflexivity.
Qed.

(** So does a stale job that was cancelled. *)
Lemma stale_cancellation_discarded (jobId : N) (e : Thrown) (s : State) :
  jobId <> currentJob s ->
  name_is e "AbortError" = true ->
  exec (settled jobId (Rejected e)) s = s.
Proof.
  intros Hstale Habort. run_monad.
  apply N.eqb_neq in Hstale. rewrite Habort. cbn. rewrite Hstale. reflexivity.
Qed.

(** The [catch] branch has no such guard: whatever the job, a failure other
    than a cancellation is written to [error]. *)
Lemma failure_sets_error (jobId : N) (e : Thrown) (s : State) :
  name_is e "AbortError" = false ->
  error (exec (settled jobId (Rejected e)) s) = message_or e "Image processing error".
Proof.
  intros Hother. run_monad. rewrite Hother. cbn.
  destruct (jobId =? currentJob s)%N; reflexivity.
Qed.

(** C2.  When the processing call rejects with a cancellation (a thrown
    value whose name is AbortError), the completion handler leaves the error
    state, and the result, exactly as they were; this holds for the page's
    [handleImage] and for the one-file uploader's [handleFiles]. *)
Theorem cancellation_sets_no_error (jobId : N) (e : Thrown) (s : State) :
  name_is e "AbortError" = true ->
  error (exec (Sudoku.handleImage_settled jobId (Rejected e)) s) = error s
  /\ result (exec (Sudoku.handleImage_settled jobId (Rejected e)) s) = result s
  /\ error (exec (Monolith.handleFiles_processed jobId (Rejected e)) s) = error s
  /\ result (exec (Monolith.handleFiles_processed jobId (Rejected e)) s) = result s.
Proof.
  intros Habort. run_monad. rewrite Habort. cbn.
  destruct (jobId =? currentJob s)%N; cbn; auto.
Qed.

Lemma cancellation_sets_no_error_witness :
  let e := DOMException "Aborted" "AbortError" in
  let s := with_error "an earlier error" init in
  name_is e "AbortError" = true
  /\ error (exec (Sudoku.handleImage_settled 1 (Rejected e)) s) = error s.
Proof.
  cbv zeta. split; [reflexivity|].
  apply (cancellation_sets_no_error 1 (DOMException "Aborted" "AbortError")
           (with_error "an earlier error" init)).
  reflexivity.
Defined.

(** C8.  Whatever way a job completes (success, cancellation or failure),
    the processing flag afterwards is [false] when the job's id equals the
    current job counter and is otherwise what it was: the completion of a
    superseded job never clears it. *)
Theorem processing_flag_cleared_only_by_current_job
    (jobId : N) (r : Settled string) (s : State) :
  isProcessing (exec (settled jobId r) s)
  = if (jobId =? currentJob s)%N then false else isProcessing s.
Proof.
  run_monad. destruct r as [res | e].
  - destruct (jobId =? currentJob s)%N eqn:E; cbn; rewrite ?E; reflexivity.
  - destruct (name_is e "AbortError"); cbn;
      destruct (jobId =? currentJob s)%N eqn:E; cbn; reflexivity.
Qed.

(** ** The stub *)

Definition AbortError : Thrown := DOMException "Aborted" "AbortError".

(** A settled promise stays as it is. *)
Lemma tick_settled (w : Wait) (t : Tick) (o : Settled unit) :
  outcome w = Some o -> outcome (tick w t) = Some o.
Proof.
  destruct w as [c tm l sg oc]; cbn. intros ->.
  destruct t as [ms|]; cbn.
  - destruct tm as [due|]; cbn; [|reflexivity].
    destruct (due <=? c + ms)%N; reflexivity.
  - destruct sg as [[|]|]; try reflexivity.
    destruct l; reflexivity.
Qed.

Lemma ticks_settled (ts : list Tick) (w : Wait) (o : Settled unit) :
  outcome w = Some o -> outcome (fold_left tick ts w) = Some o.
Proof.
  revert w. induction ts as [|t ts IH]; intros w Ho; cbn; [exact Ho|].
  apply IH. now apply tick_settled.
Qed.

Lemma elapsed_app (ts : list Tick) (t : Tick) :
  elapsed (ts ++ [t])
  = match t with Elapse ms => (elapsed ts + ms)%N | Abort => elapsed ts end.
Proof. unfold elapsed. rewrite fold_left_app. reflexivity. Qed.

(** While nobody aborts, the promise is pending until 900 ms have passed and
    fulfilled from then on. *)
Lemma ticks_without_abort (sig : option bool) (ts : list Tick) :
  sig <> Some true ->
  forallb (fun t => negb (is_Abort t)) ts = true ->
  fold_left tick ts (executor sig)
  = mkWait (elapsed ts)
           (if (900 <=? elapsed ts)%N then None else Some 900%N)
           (match sig with Some _ => true | None => false end)
           sig
           (if (900 <=? elapsed ts)%N then Some (Fulfilled tt) else None).
Proof.
  intros Hsig. induction ts as [|t ts IH] using rev_ind; intros Hts.
  - destruct sig as [[|]|]; [congruence| |]; reflexivity.
  - rewrite forallb_app in Hts. apply andb_true_iff in Hts as [Hts Ht].
    rewrite fold_left_app, (IH Hts), elapsed_app. cbn.
    destruct t as [ms|]; [|discriminate]. cbn.
    destruct (900 <=? elapsed ts)%N eqn:E.
    + apply N.leb_le in E.
      assert (E' : (900 <=? elapsed ts + ms)%N = true) by (apply N.leb_le; lia).
      rewrite E'. reflexivity.
    + destruct (900 <=? elapsed ts + ms)%N; reflexivity.
Qed.

(** The stub never fails in any way other than a cancellation. *)
Lemma processImageInWasm_rejects_only_on_abort
    (imageBlob : Blob) (sig : option bool) (jobId : N) (ts : list Tick) (e : Thrown) :
  processImageInWasm imageBlob sig jobId ts = Some (Rejected e) -> e = AbortError.
Proof.
  unfold processImageInWasm.
  assert (H : forall w, (outcome w = None \/ outcome w = Some (Fulfilled tt)
                         \/ outcome w = Some (Rejected AbortError)) ->
                        outcome (fold_left tick ts w) = None
                        \/ outcome (fold_left tick ts w) = Some (Fulfilled tt)
                        \/ outcome (fold_left tick ts w) = Some (Rejected AbortError)).
  { induction ts as [|t ts IH]; intros w Hw; cbn; [exact Hw|].
    apply IH. destruct Hw as [Hw | [Hw | Hw]].
    - destruct w as [c tm l sg oc]; cbn in Hw; subst oc.
      destruct t as [ms|]; cbn.
      + destruct tm as [due|]; cbn; [|auto].
        destruct (due <=? c + ms)%N; cbn; auto.
      + destruct sg as [[|]|]; cbn; auto.
        destruct l; cbn; auto.
    - right; left. now apply tick_settled.
    - right; right. now apply tick_settled. }
  specialize (H (executor sig)).
  destruct H as [H | [H | H]].
  - destruct sig as [[|]|]; cbn; auto.
  - rewrite H. discriminate.
  - rewrite H. discriminate.
  - rewrite H. congruence.
Qed.

(** The decimal text determines the number: the stub's text loses nothing
    of the job id or of the size. *)
Lemma toString_injective (n n' : N) : toString n = toString n' -> n = n'.
Proof.
  unfold toString. intros H.
  assert (Hnil : forall k, N.to_uint k <> Decimal.Nil).
  { intros [|p]; cbn; [discriminate|].
    apply DecimalPos.Unsigned.to_uint_nonnil. }
  apply (f_equal NilZero.uint_of_string) in H.
  rewrite !NilZero.usu in H by apply Hnil.
  injection H as H. apply DecimalN.Unsigned.to_uint_inj, H.
Qed.

(** C7.  For every blob and job id: (1) while the signal is not triggered
    (not aborted at the call, and no abort during the run), the stub is
    pending until 900 ms have elapsed and from then on has resolved with
    the text that carries the job id and the blob's size; (2) with a signal
    that is already aborted at the call it has rejected with an AbortError,
    whatever happens next; (3) when the abort fires before 900 ms have
    elapsed it has rejected with an AbortError and stays so, however much
    time passes afterwards. *)
Theorem processImageInWasm_stub
    (imageBlob : Blob) (jobId : N) (sig : option bool) (ts pre post : list Tick) :
  (sig <> Some true ->
   forallb (fun t => negb (is_Abort t)) ts = true ->
   processImageInWasm imageBlob sig jobId ts
   = if (900 <=? elapsed ts)%N
     then Some (Fulfilled ("WASM stub ✓ (job #" ++ toString jobId ++ "). Bytes: "
                             ++ toString (size imageBlob))%string)
     else None)
  /\ processImageInWasm imageBlob (Some true) jobId ts
     = Some (Rejected (DOMException "Aborted" "AbortError"))
  /\ (forallb (fun t => negb (is_Abort t)) pre = true ->
      (elapsed pre < 900)%N ->
      processImageInWasm imageBlob (Some false) jobId (pre ++ Abort :: post)
      = Some (Rejected (DOMException "Aborted" "AbortError"))).
Proof.
  unfold processImageInWasm. repeat split.
  - intros Hsig Hts. rewrite (ticks_without_abort sig ts Hsig Hts). cbn.
    destruct (900 <=? elapsed ts)%N; reflexivity.
  - rewrite (ticks_settled ts (executor (Some true)) (Rejected AbortError));
      reflexivity.
  - intros Hpre Hlt. rewrite fold_left_app. cbn [fold_left].
    rewrite (ticks_without_abort (Some false) pre) by (congruence || assumption).
    apply N.leb_gt in Hlt. rewrite Hlt.
    rewrite (ticks_settled post _ (Rejected AbortError)); reflexivity.
Qed.

Lemma processImageInWasm_stub_witness :
  let blob := mkBlob 1 "image/webp" 4096 in
  processImageInWasm blob (Some false) 3 [Elapse 500; Elapse 400]
  = Some (Fulfilled "WASM stub ✓ (job #3). Bytes: 4096"%string)
  /\ processImageInWasm blob (Some false) 3 [Elapse 500; Abort; Elapse 400]
     = Some (Rejected (DOMException "Aborted" "AbortError")).
Proof.
  cbv zeta. split.
  - apply (proj1 (processImageInWasm_stub (mkBlob 1 "image/webp" 4096) 3
                    (Some false) [Elapse 500; Elapse 400] [] [])).
    + discriminate.
    + reflexivity.
  - apply (proj2 (proj2 (processImageInWasm_stub (mkBlob 1 "image/webp" 4096) 3
                    (Some false) [] [Elapse 500] [Elapse 400]))).
    + reflexivity.
    + reflexivity.
Defined.

(** ** Stale completions *)

Lemma processing_job_unchanged (jobId : N) (r : Settled string) (s : State) :
  currentJob (exec (settled jobId r) s) = currentJob s.
Proof.
  destruct s as [pv ip rs er cj ca p ou rv ab wa cl ra pe mo ps].
  cbv [exec settled bind ret get modify when setResult setError setIsProcessing].
  destruct r as [res | e]; cbn -[N.eqb name_is message_or].
  - destruct (jobId =? cj)%N eqn:E; cbn -[N.eqb]; rewrite ?E; reflexivity.
  - destruct (name_is e "AbortError"); cbn -[N.eqb message_or];
      destruct (jobId =? cj)%N eqn:E; cbn -[N.eqb]; rewrite ?E; reflexivity.
Qed.

Lemma stub_outcome_stale (imageBlob : Blob) (sig : option bool) (jobId : N)
    (ts : list Tick) (o : Settled string) (s : State) :
  processImageInWasm imageBlob sig jobId ts = Some o ->
  jobId <> currentJob s ->
  exec (settled jobId o) s = s.
Proof.
  intros Hstub Hstale. destruct o as [res | e].
  - now apply stale_success_discarded.
  - apply stale_cancellation_discarded; [exact Hstale|].
    rewrite (processImageInWasm_rejects_only_on_abort _ _ _ _ _ Hstub).
    reflexivity.
Qed.

Lemma two_submissions_job (imageA imageB : Blob) (s0 : State) :
  currentJob (exec (Sudoku.handleImage imageA ;; Sudoku.handleImage imageB) s0)
  = (currentJob s0 + 1 + 1)%N
  /\ forall rA rB,
       currentJob (exec (Monolith.handleFiles_downscaled imageA rA ;;
                         Monolith.handleFiles_downscaled imageB rB) s0)
       = (currentJob s0 + 1 + 1)%N.
Proof.
  destruct s0 as [pv ip rs er cj ca p ou rv ab wa cl ra pe mo ps].
  cbv [exec Sudoku.handleImage Monolith.handleFiles_downscaled submit bind ret
       get modify abort_currentAbort next_job setIsProcessing await
       console_warn setError setResult].
  split; [destruct ca; reflexivity|].
  intros [a | ea] [b | eb]; destruct ca; reflexivity.
Qed.

(** C1.  The completion of a job is whatever [processImageInWasm] settles
    with: its text, or the AbortError of a cancellation.  When such a
    completion arrives for a job whose id is no longer the current job
    counter, the handler leaves the whole state as it was, in the page and
    in the one-file uploader; in the event loop the only change is that the
    call is no longer pending, so nothing the user sees changes.  In
    particular, when job A is submitted and job B is submitted before A
    settles, A's completion changes nothing, before or after B's own: only
    B's outcome reaches the result or the error. *)
Theorem stale_completion_changes_nothing
    (imageBlob : Blob) (sig : option bool) (jobId : N) (ts : list Tick)
    (o : Settled string) :
  processImageInWasm imageBlob sig jobId ts = Some o ->
  (forall s, jobId <> currentJob s ->
     exec (Sudoku.handleImage_settled jobId o) s = s
     /\ exec (Monolith.handleFiles_processed jobId o) s = s)
  /\ (forall b s k,
        jobId <> currentJob s ->
        nth_error (pending s) k = Some (AwaitProcess jobId) ->
        step b s (Settle k (Processed o))
        = with_pending (remove_nth k (pending s)) s
        /\ visible (step b s (Settle k (Processed o))) = visible s)
  /\ (forall imageA imageB s0,
        jobId = (currentJob s0 + 1)%N ->
        let s2 := exec (Sudoku.handleImage imageA ;; Sudoku.handleImage imageB) s0 in
        exec (Sudoku.handleImage_settled jobId o) s2 = s2
        /\ forall oB, exec (Sudoku.handleImage_settled jobId o)
                        (exec (Sudoku.handleImage_settled (currentJob s2) oB) s2)
                      = exec (Sudoku.handleImage_settled (currentJob s2) oB) s2)
  /\ (forall imageA imageB rA rB s0,
        jobId = (currentJob s0 + 1)%N ->
        let s2 := exec (Monolith.handleFiles_downscaled imageA rA ;;
                        Monolith.handleFiles_downscaled imageB rB) s0 in
        exec (Monolith.handleFiles_processed jobId o) s2 = s2
        /\ forall oB, exec (Monolith.handleFiles_processed jobId o)
                        (exec (Monolith.handleFiles_processed (currentJob s2) oB) s2)
                      = exec (Monolith.handleFiles_processed (currentJob s2) oB) s2).
Proof.
  intros Hstub.
  pose proof processing_job_unchanged as Hsettled_job.
  split; [|split; [|split]].
  - intros s Hstale. unfold Sudoku.handleImage_settled, Monolith.handleFiles_processed.
    split; apply (stub_outcome_stale imageBlob sig jobId ts o s Hstub Hstale).
  - intros b s k Hstale Hk. unfold step. rewrite Hk. cbn [resume].
    assert (E : exec (settled jobId o) (with_pending (remove_nth k (pending s)) s)
                = with_pending (remove_nth k (pending s)) s).
    { apply (stub_outcome_stale imageBlob sig jobId ts o _ Hstub).
      destruct s; exact Hstale. }
    rewrite E. split; [reflexivity | destruct s; reflexivity].
  - intros imageA imageB s0 Hj. cbv zeta.
    destruct (two_submissions_job imageA imageB s0) as [Hc _].
    unfold Sudoku.handleImage_settled. split.
    + apply (stub_outcome_stale imageBlob sig jobId ts o _ Hstub). rewrite Hc. lia.
    + intros oB. apply (stub_outcome_stale imageBlob sig jobId ts o _ Hstub).
      rewrite Hsettled_job, Hc. lia.
  - intros imageA imageB rA rB s0 Hj. cbv zeta.
    destruct (two_submissions_job imageA imageB s0) as [_ Hc].
    unfold Monolith.handleFiles_processed. split.
    + apply (stub_outcome_stale imageBlob sig jobId ts o _ Hstub). rewrite Hc. lia.
    + intros oB. apply (stub_outcome_stale imageBlob sig jobId ts o _ Hstub).
      rewrite Hsettled_job, Hc. lia.
Qed.

Lemma stale_completion_changes_nothing_witness :
  let imageA := mkBlob 1 "image/png" 1000 in
  let imageB := mkBlob 2 "image/png" 2000 in
  let s2 := exec (Sudoku.handleImage imageA ;; Sudoku.handleImage imageB) init in
  processImageInWasm imageA (Some false) 1 [Elapse 300; Abort]
  = Some (Rejected (DOMException "Aborted" "AbortError"))
  /\ 1%N <> currentJob s2
  /\ exec (Sudoku.handleImage_settled 1
             (Rejected (DOMException "Aborted" "AbortError"))) s2 = s2.
Proof.
  cbv zeta. split; [reflexivity|]. split; [vm_compute; discriminate|].
  exact (proj1 (proj1 (stale_completion_changes_nothing
                         (mkBlob 1 "image/png" 1000) (Some false) 1
                         [Elapse 300; Abort]
                         (Rejected (DOMException "Aborted" "AbortError"))
                         eq_refl)
                      (exec (Sudoku.handleImage (mkBlob 1 "image/png" 1000) ;;
                             Sudoku.handleImage (mkBlob 2 "image/png" 2000)) init)
                      ltac:(vm_compute; discriminate))).
Defined.

(** ** Acquisition *)

Lemma too_large_message :
  ("File is too large (> "
     ++ toFixed0 (js_div (inject_Z (Z.of_N MAX_BYTES)) (js_mul 1024 1024))
     ++ " MB).")%string
  = "File is too large (> 10 MB)."%string.
Proof. vm_compute. reflexivity. Qed.

Local Ltac run_handleFiles :=
  cbv [exec handleFiles SudokuUploader.handleFiles Monolith.handleFiles
       bind ret get modify when setResult setError setImagePreviewUrl
       previewEffect createObjectURL downscaleImage_begin await
       revokeObjectURL];
  rewrite ?too_large_message;
  cbn -[MAX_BYTES N.ltb N.eqb startsWith N.add].

(** C3, as the code has it.  [handleFiles] stops — no preview URL, no object
    URL, nothing suspended, no processing call, no job, no canvas — exactly
    when no file is present, or the MIME type does not begin with image/, or
    the size exceeds 10 MiB; otherwise it shows the preview and starts the
    downscale.  A missing file is ignored without any report.  The one-file
    uploader reports a file of the wrong type with the message about image
    files and an image over the cap with the size-specific message (the type
    is tested first); the SudokuUploader component reports nothing and
    leaves the whole state untouched when it rejects. *)
Theorem acquisition_rejection (b : Build) (files : option (list Blob)) (s : State) :
  let s' := exec (handleFiles b files) s in
  (if acquisition_rejects files
   then imagePreviewUrl s' = imagePreviewUrl s
        /\ objectUrls s' = objectUrls s
        /\ pending s' = pending s
        /\ calls s' = calls s
        /\ currentJob s' = currentJob s
        /\ rasters s' = rasters s
   else exists file,
        first_file files = Some file
        /\ imagePreviewUrl s' = Some (objectUrls s)
        /\ pending s' = AwaitDownscale file (objectUrls s + 1)%N :: pending s)
  /\ match first_file files, b with
     | None, _ => s' = s
     | Some file, Split => if acquisition_rejects files then s' = s else True
     | Some file, OneFile =>
         error s'
         = if negb (startsWith (type file) "image/")
           then "Please upload an image file (JPEG/PNG/WebP)."%string
           else if (MAX_BYTES <? size file)%N
                then "File is too large (> 10 MB)."%string
                else EmptyString
     end.
Proof.
  cbv zeta. unfold acquisition_rejects.
  change (10 * 1024 * 1024)%N with MAX_BYTES.
  destruct s as [pv ip rs er cj ca p ou rv ab wa cl ra pe mo ps].
  destruct b; run_handleFiles;
    (destruct (first_file files) as [file|]; [|repeat split; reflexivity]);
    destruct (startsWith (type file) "image/");
    destruct (MAX_BYTES <? size file)%N;
    cbn; try (repeat split; reflexivity);
    (split; [exists file|]);
    destruct p as [u|]; cbn; try destruct (negb _); cbn;
    repeat split; reflexivity.
Qed.

(** C3, as stated, fails.  With no file present, acquisition stops but no
    error is reported, in either build; the SudokuUploader component reports
    no error for a text file either; and in the one-file uploader a 20 MB
    PDF, which exceeds the cap, gets the message about image files, not the
    size-specific one. *)
Lemma rejection_without_error_report :
  let txt := mkBlob 1 "text/plain" 100 in
  let pdf := mkBlob 2 "application/pdf" 20000000 in
  (acquisition_rejects None = true
   /\ exec (Monolith.handleFiles None) init = init
   /\ exec (SudokuUploader.handleFiles None) init = init
   /\ error init = EmptyString)
  /\ (acquisition_rejects (Some [txt]) = true
      /\ exec (SudokuUploader.handleFiles (Some [txt])) init = init)
  /\ (acquisition_rejects (Some [pdf]) = true
      /\ (MAX_BYTES <? size pdf)%N = true
      /\ error (exec (Monolith.handleFiles (Some [pdf])) init)
         = "Please upload an image file (JPEG/PNG/WebP)."%string).
Proof. cbv zeta. repeat split; vm_compute; reflexivity. Qed.

(** C10.  In the one-file uploader, a call of [handleFiles] with a file
    present leaves the result empty and the error equal to what validation
    says about this file alone (empty for an accepted file): whatever result
    and error were displayed before are gone, also when the file is rejected
    for its type or its size. *)
Theorem handleFiles_clears_result_and_error
    (file : Blob) (rest : list Blob) (s : State) :
  let s' := exec (Monolith.handleFiles (Some (file :: rest))) s in
  result s' = EmptyString
  /\ error s'
     = if negb (startsWith (type file) "image/")
       then "Please upload an image file (JPEG/PNG/WebP)."%string
       else if (MAX_BYTES <? size file)%N
            then "File is too large (> 10 MB)."%string
            else EmptyString.
Proof.
  cbv zeta. destruct s as [pv ip rs er cj ca p ou rv ab wa cl ra pe mo ps].
  run_handleFiles.
  destruct (startsWith (type file) "image/");
    destruct (MAX_BYTES <? size file)%N;
    cbn; try (split; reflexivity).
  destruct p as [u|]; cbn; try destruct (negb _); cbn; split; reflexivity.
Qed.

(** ** Downscale failure *)

(** C9.  Take any state in which [handleFiles] is suspended on
    [downscaleImage(file)] (which is where an accepted file leaves it), and
    let that call throw.  When the suspended call is resumed, the processing
    function is called with the original [file] itself, the warning is
    logged, and no error is shown: the page's [handleImage] clears the error
    as it does for every submission, and the one-file uploader leaves it as
    it was. *)
Theorem downscale_failure_falls_back
    (b : Build) (s : State) (k : nat) (file : Blob) (url : Url)
    (br : Browser) (e : Thrown) :
  nth_error (pending s) k = Some (AwaitDownscale file url) ->
  fst (downscaleImage_try file maxSide_default mime_default quality_default br s)
  = Rejected e ->
  let s' := step b s (Settle k (Decoded br)) in
  calls s' = (file, (currentJob s + 1)%N) :: calls s
  /\ warnings s' = "Downscale failed, using original file"%string :: warnings s
  /\ error s' = match b with Split => EmptyString | OneFile => error s end.
Proof.
  intros Hk Hthrow. cbv zeta. unfold step. rewrite Hk. cbn [resume].
  revert Hthrow.
  destruct s as [pv ip rs er cj ca p ou rv ab wa cl ra pe mo ps].
  cbv [exec bind ret get modify when downscaleImage_end downscaleImage_try
       new_canvas revokeObjectURL handleFiles_downscaled
       SudokuUploader.handleFiles_downscaled Monolith.handleFiles_downscaled
       Sudoku.handleImage submit console_warn abort_currentAbort next_job await
       setError setResult setIsProcessing].
  destruct (createImageBitmap br) as [bitmap | e0].
  - destruct (strict_eq _ 1); cbn; [discriminate|].
    destruct (hasOffscreenCanvas br); cbn; [|discriminate].
    destruct (convertToBlob br) as [blob | e1]; cbn; [discriminate|].
    intros _. destruct b; destruct ca; cbn; repeat split; reflexivity.
  - cbn. intros _. destruct b; destruct ca; cbn; repeat split; reflexivity.
Qed.

Lemma downscale_failure_falls_back_witness :
  let file := mkBlob 7 "image/png" 2048 in
  let br := mkBrowser (Rejected (Error "InvalidStateError" "cannot decode"))
                      true (Rejected (Error "Error" "unused")) None in
  let s := step OneFile init (Files (Some [file])) in
  nth_error (pending s) 0 = Some (AwaitDownscale file 1%N)
  /\ calls (step OneFile s (Settle 0 (Decoded br))) = [(file, 1%N)]
  /\ warnings (step OneFile s (Settle 0 (Decoded br)))
     = ["Downscale failed, using original file"%string].
Proof.
  cbv zeta. split; [reflexivity|].
  pose proof (downscale_failure_falls_back OneFile
                (step OneFile init (Files (Some [mkBlob 7 "image/png" 2048])))
                0 (mkBlob 7 "image/png" 2048) 1%N
                (mkBrowser (Rejected (Error "InvalidStateError" "cannot decode"))
                           true (Rejected (Error "Error" "unused")) None)
                (Error "InvalidStateError" "cannot decode")
                eq_refl eq_refl) as H.
  cbv zeta in H. destruct H as (Hc & Hw & _). split; [exact Hc | exact Hw].
Defined.

(** ** The preview URL *)

Lemma Inv_view (s s' : State) : url_view s = url_view s' -> Inv s -> Inv s'.
Proof.
  unfold url_view. intros H I.
  injection H as H1 H2 H3 H4 H5 H6 H7.
  destruct I. constructor; unfold displayed in *;
    rewrite <- ?H1, <- ?H2, <- ?H3, <- ?H4, <- ?H5, <- ?H6, <- ?H7; assumption.
Qed.

Local Ltac split_ifs :=
  repeat (cbn -[N.eqb N.add name_is message_or];
          match goal with
          | |- context [if ?c then _ else _] => destruct c
          | |- context [match ?c with Some _ => _ | None => _ end] => destruct c
          end);
  cbn -[N.eqb N.add name_is message_or].

Lemma Inv_init : Inv init.
Proof.
  constructor; cbn; try (intros u []); auto. constructor.
Qed.

(** The job sequencer does not touch object URLs. *)
Lemma settled_view (jobId : N) (r : Settled string) (s : State) :
  url_view (exec (settled jobId r) s) = url_view s.
Proof.
  destruct s as [pv ip rs er cj ca p ou rv ab wa cl ra pe mo ps].
  cbv [exec settled bind ret get modify when setResult setError setIsProcessing].
  destruct r as [res | e]; split_ifs; reflexivity.
Qed.

Lemma submit_view (image : Blob) (s : State) :
  url_view (exec (submit image) s) = url_view s.
Proof.
  destruct s as [pv ip rs er cj ca p ou rv ab wa cl ra pe mo ps].
  cbv [exec submit bind ret get modify abort_currentAbort next_job
       setIsProcessing await].
  split_ifs; reflexivity.
Qed.

Lemma handleFiles_downscaled_view (b : Build) (file : Blob) (r : Settled Blob)
    (s : State) :
  url_view (exec (handleFiles_downscaled b file r) s) = url_view s.
Proof.
  destruct s as [pv ip rs er cj ca p ou rv ab wa cl ra pe mo ps].
  cbv [exec handleFiles_downscaled SudokuUploader.handleFiles_downscaled
       Monolith.handleFiles_downscaled Sudoku.handleImage submit bind ret get
       modify abort_currentAbort next_job setIsProcessing await console_warn
       setError setResult].
  destruct b, r; split_ifs; reflexivity.
Qed.

Lemma temp_urls_remove_process (k : nat) (ts : list Task) (jobId : N) :
  nth_error ts k = Some (AwaitProcess jobId) ->
  temp_urls (remove_nth k ts) = temp_urls ts.
Proof.
  revert k. induction ts as [|t ts IH]; intros [|k] H; cbn in *; try discriminate.
  - injection H as ->. reflexivity.
  - destruct t; cbn; rewrite (IH k H); reflexivity.
Qed.

(** Resuming a suspended [downscaleImage] takes its URL out of the list. *)
Lemma temp_urls_remove_downscale (k : nat) (ts : list Task) (file : Blob) (url : Url) :
  nth_error ts k = Some (AwaitDownscale file url) ->
  exists l1 l2, temp_urls ts = l1 ++ url :: l2
                /\ temp_urls (remove_nth k ts) = l1 ++ l2.
Proof.
  revert k. induction ts as [|t ts IH]; intros [|k] H; cbn in *; try discriminate.
  - injection H as ->. exists [], (temp_urls ts). split; reflexivity.
  - destruct (IH k H) as (l1 & l2 & E1 & E2).
    destruct t as [f u | j]; cbn.
    + exists (u :: l1), l2. rewrite E1, E2. split; reflexivity.
    + exists l1, l2. split; assumption.
Qed.

Lemma NoDup_insert (l1 l2 : list Url) (a : Url) :
  NoDup (l1 ++ l2) -> ~ In a (l1 ++ l2) -> NoDup (l1 ++ a :: l2).
Proof.
  intros Hnd Ha. apply (NoDup_Add (Add_app a l1 l2)). split; assumption.
Qed.

(** An accepted file: the new URL is displayed, the one before is revoked. *)
Lemma Inv_accept (s : State) (file : Blob) :
  Inv s -> mounted s = true ->
  Inv (exec (objectUrl <- createObjectURL file ;;
             setImagePreviewUrl objectUrl ;;
             url <- downscaleImage_begin file ;;
             await (AwaitDownscale file url)) s).
Proof.
  intros I Hm.
  destruct s as [pv ip rs er cj ca p ou rv ab wa cl ra pe mo ps].
  destruct I as [I1 I2 I3 I4 I5 I6 I7 I8]. cbn in *. subst p mo.
  cbv [exec bind ret get modify when setImagePreviewUrl previewEffect
       createObjectURL downscaleImage_begin await revokeObjectURL].
  cbn -[N.eqb N.add].
  assert (Hall : forall u, In u (ps ++ temp_urls pe) -> (u < ou)%N).
  { intros u Hu. apply in_app_or in Hu as [Hu | Hu]; auto. }
  assert (Hnd : NoDup ((ou :: ps) ++ (ou + 1)%N :: temp_urls pe)).
  { cbn. constructor.
    - intros Hu. apply in_app_or in Hu as [Hu | [Hu | Hu]].
      + apply I2 in Hu. lia.
      + lia.
      + apply I3 in Hu. lia.
    - apply NoDup_insert; [assumption|].
      intros Hu. apply Hall in Hu. lia. }
  destruct pv as [cur|]; cbn -[N.eqb N.add].
  - destruct I7 as [rest ->].
    assert (Hcur : (cur < ou)%N) by (apply I2; left; reflexivity).
    assert (Hne : (cur =? ou)%N = false) by (apply N.eqb_neq; lia).
    rewrite Hne. cbn -[N.eqb N.add].
    constructor; cbn -[N.eqb N.add]; unfold displayed; cbn -[N.eqb N.add].
    + reflexivity.
    + intros u [<- | Hu]; [lia|]. apply I2 in Hu. lia.
    + intros u [<- | Hu]; [lia|]. apply I3 in Hu. lia.
    + intros u [<- | Hu]; [lia|]. apply I4 in Hu. lia.
    + exact Hnd.
    + intros u [<- | Hu] [Hr | Hr]; try lia.
      * apply I4 in Hr. lia.
      * subst u. apply NoDup_cons_iff in I5 as [Hc _].
        apply Hc, in_or_app. now right.
      * now apply (I6 u).
    + eauto.
    + constructor.
      * rewrite N.eqb_refl.
        destruct (N.eq_dec cur ou) as [E|_]; [lia|].
        apply count_occ_not_In. intros Hr. apply I4 in Hr. lia.
      * apply Forall_forall. intros u Hu.
        assert (Hu' : (u < ou)%N) by (apply I2; exact Hu).
        assert (E : (u =? ou)%N = false) by (apply N.eqb_neq; lia).
        rewrite E.
        rewrite Forall_forall in I8. specialize (I8 u Hu).
        unfold displayed in I8. cbn -[N.eqb] in I8.
        destruct (N.eq_dec cur u) as [-> | Hcu].
        -- rewrite N.eqb_refl in I8. rewrite I8. reflexivity.
        -- assert (E' : (u =? cur)%N = false) by (apply N.eqb_neq; congruence).
           rewrite E' in I8. exact I8.
  - subst ps.
    constructor; cbn -[N.eqb N.add]; unfold displayed; cbn -[N.eqb N.add].
    + reflexivity.
    + intros u [<- | []]; lia.
    + intros u [<- | Hu]; [lia|]. apply I3 in Hu. lia.
    + intros u Hu. apply I4 in Hu. lia.
    + exact Hnd.
    + intros u [<- | Hu] Hr.
      * apply I4 in Hr. lia.
      * now apply (I6 u).
    + eauto.
    + constructor; [|constructor]. rewrite N.eqb_refl.
      apply count_occ_not_In. intros Hr. apply I4 in Hr. lia.
Qed.

Lemma exec_bind {A B} (c : M A) (k : A -> M B) (s : State) :
  exec (bind c k) s = exec (k (fst (c s))) (snd (c s)).
Proof. unfold exec, bind. destruct (c s); reflexivity. Qed.

Lemma Inv_handleFiles (b : Build) (files : option (list Blob)) (s : State) :
  Inv s -> mounted s = true -> Inv (exec (handleFiles b files) s).
Proof.
  intros I Hm. destruct b; cbn [handleFiles];
    unfold SudokuUploader.handleFiles, Monolith.handleFiles;
    (destruct (first_file files) as [file|]; [|exact I]).
  - destruct (negb _); [exact I|].
    destruct (MAX_BYTES <? size file)%N; [exact I|].
    now apply Inv_accept.
  - rewrite exec_bind, exec_bind.
    set (s0 := snd (setResult _ (snd (setError _ s)))).
    assert (I0 : Inv s0) by (apply (Inv_view s); [reflexivity | exact I]).
    destruct (negb _); [apply (Inv_view s0); [reflexivity | exact I0]|].
    destruct (MAX_BYTES <? size file)%N;
      [apply (Inv_view s0); [reflexivity | exact I0]|].
    apply Inv_accept; [exact I0 | exact Hm].
Qed.

(** The state right after [downscaleImage] has run its [finally]. *)
Lemma downscaleImage_end_view (file : Blob) (maxSide : positive) (mime : string)
    (quality : Q) (url : Url) (br : Browser) (s : State) :
  url_view (snd (downscaleImage_end file maxSide mime quality url br s))
  = url_view (with_revoked (url :: revoked s) s).
Proof.
  destruct s as [pv ip rs er cj ca p ou rv ab wa cl ra pe mo ps].
  cbv [downscaleImage_end downscaleImage_try bind ret modify new_canvas
       revokeObjectURL].
  destruct (createImageBitmap br); [|reflexivity].
  destruct (strict_eq _ 1); [reflexivity|].
  destruct (hasOffscreenCanvas br); reflexivity.
Qed.

Lemma Inv_release (s : State) (k : nat) (file : Blob) (url : Url) :
  Inv s ->
  nth_error (pending s) k = Some (AwaitDownscale file url) ->
  Inv (with_revoked (url :: revoked s)
         (with_pending (remove_nth k (pending s)) s)).
Proof.
  intros I Hk.
  destruct (temp_urls_remove_downscale k (pending s) file url Hk)
    as (l1 & l2 & E1 & E2).
  destruct s as [pv ip rs er cj ca p ou rv ab wa cl ra pe mo ps].
  destruct I as [I1 I2 I3 I4 I5 I6 I7 I8]. cbn in *.
  rewrite E1 in *.
  assert (Hurl : In url (l1 ++ url :: l2)) by (apply in_elt).
  assert (Hsub : forall u, In u (l1 ++ l2) -> In u (l1 ++ url :: l2)).
  { intros u Hu. apply in_app_or in Hu as [Hu | Hu]; apply in_or_app;
      [left | right; right]; assumption. }
  assert (Hdisj : forall u, In u ps -> u <> url).
  { intros u Hu ->. rewrite app_assoc in I5.
    apply NoDup_remove_2 in I5. apply I5, in_or_app. left.
    apply in_or_app. now left. }
  constructor; cbn; unfold displayed; cbn; rewrite ?E2.
  - exact I1.
  - exact I2.
  - intros u Hu. apply I3, Hsub, Hu.
  - intros u [<- | Hu]; [apply I3, Hurl | apply I4, Hu].
  - rewrite app_assoc in I5 |- *. now apply NoDup_remove_1 in I5.
  - intros u Hu [Hr | Hr].
    + subst u. apply NoDup_app_remove_l in I5.
      apply NoDup_remove_2 in I5. contradiction.
    + apply (I6 u (Hsub u Hu) Hr).
  - exact I7.
  - apply Forall_forall. intros u Hu.
    rewrite Forall_forall in I8. specialize (I8 u Hu).
    unfold displayed in I8. cbn in I8.
    destruct (N.eq_dec url u) as [E|_]; [symmetry in E; now apply Hdisj in E|].
    exact I8.
Qed.

Lemma Inv_cleanup (b : Build) (s : State) :
  Inv s -> mounted s = true ->
  Inv (with_mounted false (exec (onCleanup b) s)).
Proof.
  intros I Hm.
  apply (Inv_view (with_mounted false (exec previewCleanup s))).
  { destruct s as [pv ip rs er cj ca p ou rv ab wa cl ra pe mo ps].
    destruct b; [reflexivity|].
    cbv [onCleanup Monolith.onCleanup exec previewCleanup bind ret get modify
         revokeObjectURL abort_currentAbort].
    destruct pv, ca; reflexivity. }
  destruct s as [pv ip rs er cj ca p ou rv ab wa cl ra pe mo ps].
  destruct I as [I1 I2 I3 I4 I5 I6 I7 I8]. cbn in *. subst p mo.
  cbv [exec previewCleanup bind ret get modify revokeObjectURL]. cbn.
  destruct pv as [cur|]; cbn.
  - destruct I7 as [rest ->].
    constructor; cbn; unfold displayed; cbn; auto.
    + intros u [<- | Hu]; [apply I2; now left | apply I4, Hu].
    + intros u Hu [Hr | Hr]; [|now apply (I6 u)].
      subst u. apply NoDup_cons_iff in I5 as [Hc _].
      apply Hc, in_or_app. now right.
    + eauto.
    + apply Forall_forall. intros u Hu.
      rewrite Forall_forall in I8. specialize (I8 u Hu).
      unfold displayed in I8. cbn -[N.eqb] in I8.
      destruct (N.eq_dec cur u) as [-> | Hcu].
      * rewrite N.eqb_refl in I8. rewrite I8. reflexivity.
      * assert (E' : (u =? cur)%N = false) by (apply N.eqb_neq; congruence).
        rewrite E' in I8. exact I8.
  - subst ps. constructor; cbn; unfold displayed; cbn; auto.
Qed.

Lemma Inv_step (b : Build) (s : State) (e : Event) :
  Inv s -> Inv (step b s e).
Proof.
  intros I. destruct e as [files | k a |]; cbn [step].
  - destruct (mounted s) eqn:Hm; [now apply Inv_handleFiles | exact I].
  - destruct (nth_error (pending s) k) as [t|] eqn:Hk; [|exact I].
    destruct t as [file url | jobId], a as [br | r]; cbn [resume]; try exact I.
    + rewrite exec_bind.
      eapply Inv_view; [symmetry; apply handleFiles_downscaled_view|].
      eapply Inv_view; [symmetry; apply downscaleImage_end_view|].
      now apply (Inv_release s k file url).
    + eapply Inv_view; [symmetry; apply settled_view|].
      eapply Inv_view; [|exact I].
      unfold url_view. cbn.
      rewrite (temp_urls_remove_process k (pending s) jobId Hk).
      destruct s; reflexivity.
  - destruct (mounted s) eqn:Hm; [now apply Inv_cleanup | exact I].
Qed.

Lemma Inv_run (b : Build) (es : list Event) (s : State) :
  Inv s -> Inv (run b s es).
Proof.
  revert s. induction es as [|e es IH]; intros s I; cbn; [exact I|].
  apply IH, Inv_step, I.
Qed.

(** A run: two files are accepted, the first downscale finishes, the
    component is disposed, the second downscale finishes.  URLs 0 and 2 were
    previews, 1 and 3 were the downscaler's own; each is revoked once. *)
Lemma preview_life_cycle_example :
  let a := mkBlob 1 "image/png" 1000 in
  let b := mkBlob 2 "image/jpeg" 2000 in
  let br := mkBrowser (Fulfilled (mkBitmap 800 600)) true
                      (Fulfilled (mkBlob 9 "image/webp" 10)) None in
  let s1 := run Split init [Files (Some [a]); Files (Some [b]);
                            Settle 1 (Decoded br)] in
  let s2 := run Split s1 [Cleanup; Settle 1 (Decoded br); Files (Some [a])] in
  (imagePreviewUrl s1 = Some 2%N /\ previews s1 = [2; 0]%N
   /\ revoked s1 = [1; 0]%N)
  /\ (previews s2 = [2; 0]%N /\ revoked s2 = [3; 2; 1; 0]%N).
Proof. cbv zeta. repeat split; vm_compute; reflexivity. Qed.

(** C6.  In every state the widget can reach, in either build, each URL the
    preview has ever held has been revoked exactly once if it is no longer
    on display (it was replaced by another URL, or the component was torn
    down) and not at all while it is the one on display; the URL the signal
    holds is the latest of them.  So no preview URL is leaked or revoked
    twice, and none is revoked while displayed. *)
Theorem preview_url_revoked_exactly_once (b : Build) (es : list Event) :
  let s := run b init es in
  Forall (fun u => count_occ N.eq_dec (revoked s) u
                   = if displayed s u then 0%nat else 1%nat)
         (previews s)
  /\ match imagePreviewUrl s with
     | Some u => exists rest, previews s = u :: rest
     | None => previews s = []
     end.
Proof.
  cbv zeta. pose proof (Inv_run b es init Inv_init) as I.
  split; [apply (inv_count _ I) | apply (inv_current _ I)].
Qed.

(** ** Numbers: the rounding to binary64 *)

Section Numbers.
Local Open Scope Q_scope.

Lemma pow2_pos (k : Z) : 0 < 2 ^ k.
Proof. apply Qpower_0_lt. reflexivity. Qed.

Lemma pow2_succ (k : Z) : 2 ^ (k + 1) == 2 * 2 ^ k.
Proof. rewrite Qpower_plus by discriminate. cbn. ring. Qed.

Lemma pow2_le (j k : Z) : (j <= k)%Z -> 2 ^ j <= 2 ^ k.
Proof. intros H. apply Qpower_le_compat_l; [exact H | discriminate]. Qed.

Lemma pow2_lt_inv (j k : Z) : 2 ^ j < 2 ^ k -> (j < k)%Z.
Proof.
  intros H. destruct (Z_lt_le_dec j k) as [L | L]; [exact L|].
  apply pow2_le in L. lra.
Qed.

Lemma pow2_Z (k : Z) : (0 <= k)%Z -> 2 ^ k == inject_Z (2 ^ k).
Proof. intros H. rewrite Zpower_Qpower by exact H. reflexivity. Qed.

(** Comparing two fractions of integers. *)
Lemma Zfrac_lt (a b c d : Z) :
  (0 < b)%Z -> (0 < d)%Z -> (a * d < c * b)%Z ->
  inject_Z a / inject_Z b < inject_Z c / inject_Z d.
Proof.
  intros Hb Hd H.
  assert (Hqb : 0 < inject_Z b) by (unfold Qlt; cbn; lia).
  assert (Hqd : 0 < inject_Z d) by (unfold Qlt; cbn; lia).
  apply Qlt_shift_div_r; [exact Hqb|].
  setoid_replace (inject_Z c / inject_Z d * inject_Z b)
    with (inject_Z c * inject_Z b / inject_Z d) by (field; lra).
  apply Qlt_shift_div_l; [exact Hqd|].
  rewrite <- !inject_Z_mult. rewrite <- Zlt_Qlt. exact H.
Qed.

Lemma Zfrac_le (a b c d : Z) :
  (0 < b)%Z -> (0 < d)%Z -> (a * d <= c * b)%Z ->
  inject_Z a / inject_Z b <= inject_Z c / inject_Z d.
Proof.
  intros Hb Hd H.
  assert (Hqb : 0 < inject_Z b) by (unfold Qlt; cbn; lia).
  assert (Hqd : 0 < inject_Z d) by (unfold Qlt; cbn; lia).
  apply Qle_shift_div_r; [exact Hqb|].
  setoid_replace (inject_Z c / inject_Z d * inject_Z b)
    with (inject_Z c * inject_Z b / inject_Z d) by (field; lra).
  apply Qle_shift_div_l; [exact Hqd|].
  rewrite <- !inject_Z_mult. rewrite <- Zle_Qle. exact H.
Qed.

(** [ilog2] is the binary exponent. *)
Lemma ilog2_spec (x : Q) :
  0 < x -> 2 ^ ilog2 x <= x /\ x < 2 ^ (ilog2 x + 1).
Proof.
  intros Hx. unfold ilog2.
  destruct x as [n d]. unfold Qlt in Hx. cbn in Hx. cbn [Qnum Qden].
  assert (Hn : (0 < n)%Z) by lia.
  pose proof (Z.log2_spec n Hn) as [Ha1 Ha2].
  pose proof (Z.log2_spec (Zpos d) eq_refl) as [Hb1 Hb2].
  pose proof (Z.log2_nonneg n) as Ha0.
  pose proof (Z.log2_nonneg (Zpos d)) as Hb0.
  set (a := Z.log2 n) in *. set (b := Z.log2 (Zpos d)) in *.
  assert (Hpa : (0 < 2 ^ a)%Z) by (apply Z.pow_pos_nonneg; lia).
  assert (Hpb : (0 < 2 ^ b)%Z) by (apply Z.pow_pos_nonneg; lia).
  assert (Hqb : 0 < inject_Z (2 ^ b)).
  { rewrite <- (pow2_Z b) by lia. apply pow2_pos. }
  assert (Ek : 2 ^ (a - b) == inject_Z (2 ^ a) / inject_Z (2 ^ b)).
  { rewrite Qpower_minus by discriminate.
    rewrite (pow2_Z a), (pow2_Z b) by lia. reflexivity. }
  assert (Ek1 : 2 ^ (a - b + 1) == inject_Z (2 * 2 ^ a) / inject_Z (2 ^ b)).
  { rewrite pow2_succ, Ek, inject_Z_mult. field.
    apply Qnot_eq_sym, Qlt_not_eq, Hqb. }
  assert (Ek0 : 2 ^ (a - b - 1) == inject_Z (2 ^ a) / inject_Z (2 * 2 ^ b)).
  { assert (E : 2 ^ (a - b) == 2 * 2 ^ (a - b - 1)).
    { rewrite <- pow2_succ. replace (a - b - 1 + 1)%Z with (a - b)%Z by lia.
      reflexivity. }
    rewrite Ek in E. rewrite inject_Z_mult.
    apply (Qmult_inj_l _ _ 2); [discriminate|]. rewrite <- E. field. lra. }
  assert (Exd : n # d == inject_Z n / inject_Z (Zpos d)) by (apply Qmake_Qdiv).
  rewrite Z.pow_succ_r in Ha2, Hb2 by lia.
  destruct (Qle_bool (2 ^ (a - b)) (n # d)) eqn:T.
  - apply Qle_bool_iff in T. split; [exact T|].
    rewrite Ek1, Exd. apply Zfrac_lt; nia.
  - split.
    + rewrite Ek0, Exd. apply Zfrac_le; nia.
    + replace (a - b - 1 + 1)%Z with (a - b)%Z by lia.
      apply Qnot_le_lt. intros H. apply Qle_bool_iff in H. congruence.
Qed.

(** Rounding to the nearest integer. *)
Lemma round_half_even_floor (q : Q) :
  (Qfloor q <= round_half_even q <= Qfloor q + 1)%Z.
Proof.
  unfold round_half_even.
  destruct (q - inject_Z (Qfloor q) ?= 1 # 2); [destruct (Z.even _)| |]; lia.
Qed.

Lemma round_half_even_near (q : Q) :
  q - (1 # 2) <= inject_Z (round_half_even q) <= q + (1 # 2).
Proof.
  unfold round_half_even.
  pose proof (Qfloor_le q) as Hlo. pose proof (Qlt_floor q) as Hhi.
  rewrite inject_Z_plus in Hhi. change (inject_Z 1) with 1 in Hhi.
  destruct (q - inject_Z (Qfloor q) ?= 1 # 2) eqn:C.
  - apply Qeq_alt in C.
    destruct (Z.even _); rewrite ?inject_Z_plus; change (inject_Z 1) with 1; lra.
  - apply Qlt_alt in C. lra.
  - apply Qgt_alt in C. rewrite inject_Z_plus. change (inject_Z 1) with 1. lra.
Qed.

Lemma round_half_even_Z (z : Z) : round_half_even (inject_Z z) = z.
Proof.
  unfold round_half_even. rewrite Qfloor_Z.
  assert (C : (inject_Z z - inject_Z z ?= 1 # 2) = Lt) by (apply (proj1 (Qlt_alt _ _)); lra).
  rewrite C. reflexivity.
Qed.

Lemma round_half_even_mono (q q' : Q) :
  q <= q' -> (round_half_even q <= round_half_even q')%Z.
Proof.
  intros H. pose proof (Qfloor_resp_le q q' H) as Hf.
  pose proof (round_half_even_floor q) as B.
  pose proof (round_half_even_floor q') as B'.
  destruct (Z.eq_dec (Qfloor q) (Qfloor q')) as [E | NE]; [|lia].
  unfold round_half_even. rewrite <- E.
  destruct (q - inject_Z (Qfloor q) ?= 1 # 2) eqn:C;
    destruct (q' - inject_Z (Qfloor q) ?= 1 # 2) eqn:C';
    try (destruct (Z.even _); lia); try lia;
    exfalso;
    repeat match goal with
           | H : (_ ?= _) = Eq |- _ => apply Qeq_alt in H
           | H : (_ ?= _) = Lt |- _ => apply Qlt_alt in H
           | H : (_ ?= _) = Gt |- _ => apply Qgt_alt in H
           end; lra.
Qed.

(** The significand of a positive number lies between 2^52 and 2^53. *)
Lemma ulp_pos (x : Q) : 0 < ulp x.
Proof. apply pow2_pos. Qed.

Lemma ulp_pow (x : Q) : ulp x * 2 ^ 52 == 2 ^ ilog2 x.
Proof.
  unfold ulp. rewrite <- Qpower_plus by discriminate.
  replace (ilog2 x - 52 + 52)%Z with (ilog2 x) by lia. reflexivity.
Qed.

Lemma significand_range (x : Q) :
  0 < x -> 2 ^ 52 <= x / ulp x /\ x / ulp x < 2 ^ 53.
Proof.
  intros Hx. destruct (ilog2_spec x Hx) as [Hlo Hhi].
  rewrite pow2_succ, <- ulp_pow in Hhi. rewrite <- ulp_pow in Hlo.
  pose proof (ulp_pos x) as Hu. split.
  - apply Qle_shift_div_l; [exact Hu|]. lra.
  - apply Qlt_shift_div_r; [exact Hu|].
    change (2 ^ 53) with (2 * 2 ^ 52). lra.
Qed.

Lemma binary64_pos (x : Q) :
  0 < x -> binary64 x = inject_Z (round_half_even (x / ulp x)) * ulp x.
Proof.
  intros Hx. unfold binary64.
  assert (C : (x ?= 0) = Gt) by (apply (proj1 (Qgt_alt _ _)); exact Hx).
  rewrite C. reflexivity.
Qed.

Lemma binary64_range (x : Q) :
  0 < x -> 2 ^ ilog2 x <= binary64 x /\ binary64 x <= 2 ^ (ilog2 x + 1).
Proof.
  intros Hx. rewrite (binary64_pos x Hx).
  destruct (significand_range x Hx) as [Hlo Hhi].
  pose proof (ulp_pos x) as Hu.
  rewrite pow2_succ, <- ulp_pow.
  assert (L : (2 ^ 52 <= round_half_even (x / ulp x))%Z).
  { rewrite <- (round_half_even_Z (2 ^ 52)). apply round_half_even_mono.
    exact Hlo. }
  assert (U : (round_half_even (x / ulp x) <= 2 ^ 53)%Z).
  { rewrite <- (round_half_even_Z (2 ^ 53)). apply round_half_even_mono.
    apply Qlt_le_weak. exact Hhi. }
  rewrite Zle_Qle in L, U.
  change (inject_Z (2 ^ 52)) with (2 ^ 52) in L.
  change (inject_Z (2 ^ 53)) with (2 * 2 ^ 52) in U.
  set (r := inject_Z (round_half_even (x / ulp x))) in *.
  split.
  - rewrite (Qmult_comm (ulp x)). apply Qmult_le_compat_r; lra.
  - setoid_replace (2 * (ulp x * 2 ^ 52)) with (2 * 2 ^ 52 * ulp x) by ring.
    apply Qmult_le_compat_r; lra.
Qed.

(** Rounding is monotone. *)
Lemma binary64_mono (x y : Q) :
  0 < x -> x <= y -> binary64 x <= binary64 y.
Proof.
  intros Hx Hxy. assert (Hy : 0 < y) by lra.
  destruct (ilog2_spec x Hx) as [Hxlo Hxhi].
  destruct (ilog2_spec y Hy) as [Hylo Hyhi].
  assert (He : (ilog2 x < ilog2 y + 1)%Z) by (apply pow2_lt_inv; lra).
  destruct (Z.eq_dec (ilog2 x) (ilog2 y)) as [E | NE].
  - rewrite (binary64_pos x Hx), (binary64_pos y Hy).
    unfold ulp. rewrite <- E. fold (ulp x).
    pose proof (ulp_pos x) as Hu.
    apply Qmult_le_compat_r; [|lra].
    rewrite <- Zle_Qle. apply round_half_even_mono.
    apply Qmult_le_compat_r; [exact Hxy|].
    apply Qlt_le_weak, Qinv_lt_0_compat, Hu.
  - destruct (binary64_range x Hx) as [_ Hxr].
    destruct (binary64_range y Hy) as [Hyr _].
    assert (Hp : 2 ^ (ilog2 x + 1) <= 2 ^ ilog2 y) by (apply pow2_le; lia).
    lra.
Qed.

(** The relative error of one rounding is at most 2^-53. *)
Lemma binary64_error (x : Q) :
  0 < x ->
  (binary64 x - x) * 2 ^ 53 <= x /\ (x - binary64 x) * 2 ^ 53 <= x.
Proof.
  intros Hx. rewrite (binary64_pos x Hx).
  destruct (ilog2_spec x Hx) as [Hlo _]. rewrite <- ulp_pow in Hlo.
  pose proof (ulp_pos x) as Hu.
  pose proof (round_half_even_near (x / ulp x)) as [N1 N2].
  set (r := inject_Z (round_half_even (x / ulp x))) in *.
  set (q := x / ulp x) in *.
  change (2 ^ 53) with (2 * 2 ^ 52).
  assert (A : (r - q) * ulp x <= (1 # 2) * ulp x)
    by (apply Qmult_le_compat_r; lra).
  assert (B : (q - r) * ulp x <= (1 # 2) * ulp x)
    by (apply Qmult_le_compat_r; lra).
  set (T := 2 ^ 52) in *.
  assert (HT : 0 < T) by reflexivity.
  split.
  - setoid_replace ((r * ulp x - x) * (2 * T))
      with ((r - q) * ulp x * (2 * T)) by (unfold q; field; apply Qnot_eq_sym, Qlt_not_eq, Hu).
    apply Qle_trans with ((1 # 2) * ulp x * (2 * T)).
    + apply Qmult_le_compat_r; lra.
    + setoid_replace ((1 # 2) * ulp x * (2 * T)) with (ulp x * T) by ring.
      exact Hlo.
  - setoid_replace ((x - r * ulp x) * (2 * T))
      with ((q - r) * ulp x * (2 * T)) by (unfold q; field; apply Qnot_eq_sym, Qlt_not_eq, Hu).
    apply Qle_trans with ((1 # 2) * ulp x * (2 * T)).
    + apply Qmult_le_compat_r; lra.
    + setoid_replace ((1 # 2) * ulp x * (2 * T)) with (ulp x * T) by ring.
      exact Hlo.
Qed.

(** [binary64] gives what the Standard Library's IEEE 754 division and
    multiplication give, on the quotients and products of this program's
    kind: among them halfway cases such as 76 * (1000 / 1216), where the
    exact product is 62.5 and the Number is just below it. *)
Lemma binary64_same_as_SpecFloat :
  forallb same_as_SpecFloat
    [(1536, 3000, 3000); (1536, 3000, 2000); (1536, 10000, 1);
     (1536, 10000, 10000); (1000, 1216, 76); (1000, 1216, 1140);
     (1000, 1584, 693); (1536, 5120, 5); (7, 3, 1); (1, 3, 3);
     (1536, 4000, 3000); (1536, 1537, 1537); (1536, 4294967295, 4294967295);
     (10485760, 1048576, 1); (2, 4294967295, 123456789)]%Z
  = true.
Proof. vm_compute. reflexivity. Qed.

Lemma halfway_product_rounds_down :
  Math_round (js_mul 76 (js_div 1000 1216)) = 62%Z
  /\ Qfloor (76 * (1000 / 1216) + (1 # 2)) = 63%Z.
Proof. split; vm_compute; reflexivity. Qed.

(** ** The downscaler *)

Lemma Qmax_inject_Z (a b : Z) :
  Qmax (inject_Z a) (inject_Z b) = inject_Z (Z.max a b).
Proof.
  unfold Qmax, GenericMinMax.gmax, Z.max, Qcompare. cbn.
  rewrite !Z.mul_1_r. destruct (a ?= b)%Z; reflexivity.
Qed.

Lemma binary64_one : binary64 1 == 1.
Proof. apply Qeq_bool_eq. vm_compute. reflexivity. Qed.

Lemma binary64_below_one : binary64 below_one == below_one.
Proof. apply Qeq_bool_eq. vm_compute. reflexivity. Qed.

Lemma inject_Z_pos (z : Z) : (0 < z)%Z -> 0 < inject_Z z.
Proof. intros H. unfold Qlt. cbn. lia. Qed.

(** Within the bound the quotient rounds to at least 1, so [scale === 1]. *)
Lemma scale_is_one (maxSide : positive) (bitmap : ImageBitmap) :
  (Z.max (Zpos (width bitmap)) (Zpos (height bitmap)) <= Zpos maxSide)%Z ->
  strict_eq (scale_factor maxSide bitmap) 1 = true.
Proof.
  intros H. unfold strict_eq, scale_factor, Math_min, Math_max, js_div.
  rewrite Qmax_inject_Z.
  set (m := Z.max (Zpos (width bitmap)) (Zpos (height bitmap))) in *.
  assert (Hm : (0 < m)%Z) by (unfold m; lia).
  apply Qeq_bool_iff. apply Q.min_l.
  rewrite <- binary64_one. apply binary64_mono; [reflexivity|].
  apply Qle_shift_div_l; [apply inject_Z_pos, Hm|].
  rewrite Qmult_1_l. rewrite <- Zle_Qle. exact H.
Qed.

(** Over the bound the quotient rounds to less than 1. *)
Lemma quotient_below_one (M m : Z) :
  (0 < M)%Z -> (M < m)%Z -> (m < 2 ^ 32)%Z ->
  0 < js_div (inject_Z M) (inject_Z m) /\ js_div (inject_Z M) (inject_Z m) < 1.
Proof.
  intros HM HMm Hm. unfold js_div.
  assert (Hq : 0 < inject_Z M / inject_Z m).
  { apply Qlt_shift_div_l; [apply inject_Z_pos; lia|].
    rewrite Qmult_0_l. apply inject_Z_pos, HM. }
  split.
  - destruct (binary64_range _ Hq) as [L _].
    pose proof (pow2_pos (ilog2 (inject_Z M / inject_Z m))). lra.
  - apply Qle_lt_trans with below_one; [|reflexivity].
    rewrite <- binary64_below_one. apply binary64_mono; [exact Hq|].
    unfold below_one.
    rewrite (Qmake_Qdiv 9007199254740991 9007199254740992).
    apply Zfrac_le; lia.
Qed.

Lemma Qmin_one_below (s : Q) : s < 1 -> Qmin 1 s = s.
Proof.
  intros H. unfold Qmin, GenericMinMax.gmin.
  assert (C : (1 ?= s) = Gt) by (apply (proj1 (Qgt_alt _ _)); exact H).
  rewrite C. reflexivity.
Qed.

(** The rounded product [W * scale] is within a quarter of a pixel of the
    exact proportional size [W * M / m]. *)
Lemma scaled_side_error (W M m : Z) :
  (0 < M)%Z -> (M < m)%Z -> (m < 2 ^ 32)%Z -> (0 < W)%Z -> (W <= m)%Z ->
  let y := js_mul (inject_Z W) (js_div (inject_Z M) (inject_Z m)) in
  let e := inject_Z (W * M) / inject_Z m in
  e - (1 # 4) <= y /\ y <= e + (1 # 4).
Proof.
  intros HM HMm Hm HW HWm. cbv zeta.
  destruct (quotient_below_one M m HM HMm Hm) as [Hs0 _].
  unfold js_mul. unfold js_div in *.
  assert (Hqm : 0 < inject_Z m) by (apply inject_Z_pos; lia).
  assert (HqW : 0 < inject_Z W) by (apply inject_Z_pos; lia).
  assert (Hx0 : 0 < inject_Z M / inject_Z m).
  { apply Qlt_shift_div_l; [exact Hqm|].
    rewrite Qmult_0_l. apply inject_Z_pos, HM. }
  destruct (binary64_error _ Hx0) as [E1 E2].
  set (x0 := inject_Z M / inject_Z m) in *.
  set (s := binary64 x0) in *.
  assert (Hp : 0 < inject_Z W * s).
  { rewrite <- (Qmult_0_r (inject_Z W)). apply Qmult_lt_l; assumption. }
  destruct (binary64_error _ Hp) as [F1 F2].
  set (p := inject_Z W * s) in *.
  set (y := binary64 p) in *.
  assert (Ee : inject_Z (W * M) / inject_Z m == inject_Z W * x0).
  { unfold x0. rewrite inject_Z_mult. field.
    apply Qnot_eq_sym, Qlt_not_eq, Hqm. }
  rewrite Ee. set (e := inject_Z W * x0).
  assert (G1 : (p - e) * 2 ^ 53 <= e).
  { setoid_replace ((p - e) * 2 ^ 53) with ((s - x0) * 2 ^ 53 * inject_Z W)
      by (unfold p, e; ring).
    unfold e. rewrite (Qmult_comm (inject_Z W)).
    apply Qmult_le_compat_r; [exact E1 | lra]. }
  assert (G2 : (e - p) * 2 ^ 53 <= e).
  { setoid_replace ((e - p) * 2 ^ 53) with ((x0 - s) * 2 ^ 53 * inject_Z W)
      by (unfold p, e; ring).
    unfold e. rewrite (Qmult_comm (inject_Z W)).
    apply Qmult_le_compat_r; [exact E2 | lra]. }
  assert (He : e <= 2 ^ 32).
  { unfold e. rewrite <- Ee.
    apply Qle_trans with (inject_Z (2 ^ 32) / inject_Z 1); [|vm_compute; discriminate].
    apply Zfrac_le; nia. }
  assert (He0 : 0 < e).
  { unfold e. rewrite <- (Qmult_0_r (inject_Z W)). apply Qmult_lt_l; assumption. }
  change (2 ^ 53) with 9007199254740992 in *.
  change (2 ^ 32) with 4294967296 in *.
  split; lra.
Qed.

(** What [Math.max(1, Math.round(W * scale))] is, in integers: within one
    pixel of [W * M / m], and exactly [M] for the longer side. *)
Lemma target_side (W M m : Z) :
  (0 < M)%Z -> (M < m)%Z -> (m < 2 ^ 32)%Z -> (0 < W)%Z -> (W <= m)%Z ->
  let t := Z.max 1 (Math_round (js_mul (inject_Z W)
                                       (js_div (inject_Z M) (inject_Z m)))) in
  ((t - 1) * m < W * M < (t + 1) * m)%Z /\ (W = m -> t = M).
Proof.
  intros HM HMm Hm HW HWm.
  destruct (scaled_side_error W M m HM HMm Hm HW HWm) as [Y1 Y2].
  cbv zeta in *. unfold Math_round.
  set (y := js_mul (inject_Z W) (js_div (inject_Z M) (inject_Z m))) in *.
  pose proof (Qfloor_le (y + (1 # 2))) as R1.
  pose proof (Qlt_floor (y + (1 # 2))) as R2.
  set (r := Qfloor (y + (1 # 2))) in *.
  rewrite inject_Z_plus in R2. change (inject_Z 1) with 1 in R2.
  assert (Hqm : 0 < inject_Z m) by (apply inject_Z_pos; lia).
  set (e := inject_Z (W * M) / inject_Z m) in *.
  assert (Ee : e * inject_Z m == inject_Z (W * M)).
  { unfold e. field. apply Qnot_eq_sym, Qlt_not_eq, Hqm. }
  assert (U : (4 * r * m <= 4 * (W * M) + 3 * m)%Z).
  { rewrite Zle_Qle. rewrite inject_Z_plus, !inject_Z_mult, <- Ee.
    change (inject_Z 4) with 4. change (inject_Z 3) with 3.
    setoid_replace (4 * (e * inject_Z m) + 3 * inject_Z m)
      with (4 * (e + (3 # 4)) * inject_Z m) by ring.
    rewrite <- !Qmult_assoc. apply Qmult_le_l; [reflexivity|].
    apply Qmult_le_compat_r; lra. }
  assert (L : (4 * (W * M) - 3 * m < 4 * r * m)%Z).
  { rewrite Zlt_Qlt. unfold Z.sub. rewrite inject_Z_plus, inject_Z_opp.
    rewrite !inject_Z_mult, <- Ee.
    change (inject_Z 4) with 4. change (inject_Z 3) with 3.
    setoid_replace (4 * (e * inject_Z m) + - (3 * inject_Z m))
      with (4 * (e - (3 # 4)) * inject_Z m) by ring.
    rewrite <- !Qmult_assoc. apply Qmult_lt_l; [reflexivity|].
    apply Qmult_lt_compat_r; [exact Hqm | lra]. }
  split.
  - destruct (Z.max_spec 1 r) as [[Hr ->] | [Hr ->]]; nia.
  - intros ->. assert (r = M) by nia. lia.
Qed.

(** C4.  When the larger pixel dimension of the decoded image is at most
    [maxSide], [downscaleImage] resolves with the very file it was given
    (same object), and no canvas is created and nothing is encoded: the
    only effect of the call is that its temporary object URL is revoked.
    With the default [maxSide] this is every image of at most 1536 pixels
    on its longer side. *)
Theorem downscale_within_bound_returns_file
    (file : Blob) (maxSide : positive) (mime : string) (quality : Q)
    (url : Url) (br : Browser) (bitmap : ImageBitmap) (s : State) :
  createImageBitmap br = Fulfilled bitmap ->
  (Z.max (Zpos (width bitmap)) (Zpos (height bitmap)) <= Zpos maxSide)%Z ->
  downscaleImage_end file maxSide mime quality url br s
  = (Fulfilled file, with_revoked (url :: revoked s) s)
  /\ rasters (snd (downscaleImage_end file maxSide mime quality url br s))
     = rasters s.
Proof.
  intros Hdec Hfit.
  unfold downscaleImage_end, downscaleImage_try, bind, ret, revokeObjectURL, modify.
  rewrite Hdec, (scale_is_one maxSide bitmap Hfit).
  split; [reflexivity | destruct s; reflexivity].
Qed.

Lemma downscale_within_bound_returns_file_witness :
  let file := mkBlob 5 "image/jpeg" 300000 in
  let br := mkBrowser (Fulfilled (mkBitmap 1536 1024)) true
                      (Fulfilled (mkBlob 6 "image/webp" 1000)) None in
  (Z.max 1536 1024 <= Zpos maxSide_default)%Z
  /\ fst (downscaleImage_end file maxSide_default mime_default quality_default
            1%N br init) = Fulfilled file.
Proof.
  cbv zeta. split; [vm_compute; discriminate|].
  rewrite (proj1 (downscale_within_bound_returns_file
                    (mkBlob 5 "image/jpeg" 300000) maxSide_default mime_default
                    quality_default 1%N
                    (mkBrowser (Fulfilled (mkBitmap 1536 1024)) true
                               (Fulfilled (mkBlob 6 "image/webp" 1000)) None)
                    (mkBitmap 1536 1024) init eq_refl
                    ltac:(vm_compute; discriminate))).
  reflexivity.
Defined.

(** C5, as the code has it.  For an image of [w] by [h] pixels (below 2^32,
    as pixel dimensions are) whose larger dimension [m] exceeds [maxSide]:
    the scale is the Number [maxSide / m] and is below 1; a canvas of
    exactly [max(1, round(w * scale))] by [max(1, round(h * scale))] pixels
    is created and encoded with the given type and quality, and the call
    settles as the encoder does; the longer output side is exactly
    [maxSide]; each output side is within one pixel of the exact
    proportional size ([w * maxSide / m], [h * maxSide / m]); and 3000 by
    2000 with [maxSide] 1536 gives 1536 by 1024. *)
Theorem downscale_over_bound
    (file : Blob) (maxSide : positive) (mime : string) (quality : Q)
    (br : Browser) (bitmap : ImageBitmap) (s : State) :
  let w := Zpos (width bitmap) in
  let h := Zpos (height bitmap) in
  let m := Z.max w h in
  let scale := js_div (inject_Z (Zpos maxSide)) (inject_Z m) in
  let tw := Z.max 1 (Math_round (js_mul (inject_Z w) scale)) in
  let th := Z.max 1 (Math_round (js_mul (inject_Z h) scale)) in
  createImageBitmap br = Fulfilled bitmap ->
  (Zpos maxSide < m)%Z ->
  (m < 2 ^ 32)%Z ->
  (scale_factor maxSide bitmap = scale /\ scale < 1)
  /\ downscaleImage_try file maxSide mime quality br s
     = (if hasOffscreenCanvas br then convertToBlob br
        else Fulfilled (match toBlob br with Some blob => blob | None => file end),
        with_rasters (mkRaster tw th mime quality :: rasters s) s)
  /\ Z.max tw th = Zpos maxSide
  /\ ((tw - 1) * m < w * Zpos maxSide < (tw + 1) * m)%Z
  /\ ((th - 1) * m < h * Zpos maxSide < (th + 1) * m)%Z
  /\ (targetW 1536 (mkBitmap 3000 2000) = 1536%Z
      /\ targetH 1536 (mkBitmap 3000 2000) = 1024%Z).
Proof.
  intros w h m scale tw th Hdec Hover Hm.
  assert (HM : (0 < Zpos maxSide)%Z) by reflexivity.
  destruct (quotient_below_one (Zpos maxSide) m HM Hover Hm) as [Hs0 Hs1].
  fold scale in Hs0, Hs1.
  assert (Hscale : scale_factor maxSide bitmap = scale).
  { unfold scale_factor, Math_min, Math_max. rewrite Qmax_inject_Z.
    fold w h m scale. apply Qmin_one_below, Hs1. }
  assert (Hne : strict_eq (scale_factor maxSide bitmap) 1 = false).
  { rewrite Hscale. unfold strict_eq.
    destruct (Qeq_bool scale 1) eqn:E; [|reflexivity].
    apply Qeq_bool_iff in E. lra. }
  destruct (target_side w (Zpos maxSide) m HM Hover Hm) as [Bw Lw];
    [reflexivity | unfold m; lia |].
  destruct (target_side h (Zpos maxSide) m HM Hover Hm) as [Bh Lh];
    [reflexivity | unfold m; lia |].
  fold scale in Bw, Lw, Bh, Lh. fold tw in Bw, Lw. fold th in Bh, Lh.
  split; [split; assumption|].
  split; [|split; [|split; [exact Bw|split; [exact Bh|]]]].
  - unfold downscaleImage_try. rewrite Hdec. cbv zeta. rewrite Hne.
    unfold targetW, targetH. rewrite Hscale. fold w h tw th.
    unfold bind, new_canvas, modify, ret.
    destruct (hasOffscreenCanvas br); reflexivity.
  - destruct (Z.max_spec w h) as [[Hwh Em] | [Hwh Em]]; fold m in Em.
    + specialize (Lh (eq_sym Em)). rewrite Lh.
      assert (tw <= Zpos maxSide)%Z by nia. lia.
    + specialize (Lw (eq_sym Em)). rewrite Lw.
      assert (th <= Zpos maxSide)%Z by nia. lia.
  - split; vm_compute; reflexivity.
Qed.

Lemma downscale_over_bound_witness :
  let br := mkBrowser (Fulfilled (mkBitmap 4000 3000)) true
                      (Fulfilled (mkBlob 6 "image/webp" 1000)) None in
  (Zpos maxSide_default < Z.max 4000 3000)%Z
  /\ rasters (snd (downscaleImage_try (mkBlob 5 "image/jpeg" 300000)
                     maxSide_default mime_default quality_default br init))
     = [mkRaster 1536 1152 mime_default quality_default].
Proof.
  cbv zeta. split; [reflexivity|].
  pose proof (downscale_over_bound (mkBlob 5 "image/jpeg" 300000)
                maxSide_default mime_default quality_default
                (mkBrowser (Fulfilled (mkBitmap 4000 3000)) true
                           (Fulfilled (mkBlob 6 "image/webp" 1000)) None)
                (mkBitmap 4000 3000) init eq_refl eq_refl eq_refl) as H.
  cbv zeta in H. destruct H as (_ & H & _).
  rewrite H. vm_compute. reflexivity.
Defined.

(** C5, as stated, fails: the canvas is not always [round(w * scale)] by
    [round(h * scale)].  For a 10000 by 1 image and [maxSide] 1536 the
    scaled height rounds to 0, and the canvas is 1536 by 1. *)
Lemma raster_side_is_at_least_one_pixel :
  let bitmap := mkBitmap 10000 1 in
  let scale := scale_factor 1536 bitmap in
  let br := mkBrowser (Fulfilled bitmap) true
                      (Fulfilled (mkBlob 6 "image/webp" 1000)) None in
  (Math_round (js_mul 10000 scale) = 1536%Z /\ Math_round (js_mul 1 scale) = 0%Z)
  /\ rasters (snd (downscaleImage_try (mkBlob 5 "image/png" 40000) 1536
                     mime_default quality_default br init))
     = [mkRaster 1536 1 mime_default quality_default]
  /\ mkRaster 1536 1 mime_default quality_default
     <> mkRaster (Math_round (js_mul 10000 scale)) (Math_round (js_mul 1 scale))
                 mime_default quality_default.
Proof.
  cbv zeta. repeat split; try (vm_compute; reflexivity).
  vm_compute. discriminate.
Qed.

End Numbers.

(* ================================================================== *)
(** * Further properties *)
(* ================================================================== *)

(** ** Drag and drop *)

Lemma drag_step_invariant (b : Build) (ds : Drag * State) (e : DragEvent) :
  0 <= dragDepth (fst ds) ->
  isDragging (fst ds) = (0 <? dragDepth (fst ds)) ->
  0 <= dragDepth (fst (drag_step b ds e))
  /\ isDragging (fst (drag_step b ds e)) = (0 <? dragDepth (fst (drag_step b ds e))).
Proof.
  destruct ds as [[dragging depth] s]. cbn [fst snd isDragging dragDepth].
  intros H0 Hd.
  destruct e; cbn [drag_step fst snd]; unfold onDragEnter, onDragLeave, onDragOver, onDrop;
    cbn [fst snd isDragging dragDepth].
  - destruct (depth =? 0) eqn:E; cbn [isDragging dragDepth].
    + apply Z.eqb_eq in E. subst. split; [lia | reflexivity].
    + apply Z.eqb_neq in E. split; [lia|]. rewrite Hd.
      destruct (0 <? depth) eqn:E1, (0 <? depth + 1) eqn:E2; try reflexivity;
        rewrite ?Z.ltb_lt, ?Z.ltb_ge in *; lia.
  - destruct (depth - 1 <=? 0) eqn:E; cbn [isDragging dragDepth].
    + split; [lia | reflexivity].
    + apply Z.leb_gt in E. split; [lia|]. rewrite Hd.
      destruct (0 <? depth) eqn:E1, (0 <? depth - 1) eqn:E2; try reflexivity;
        rewrite ?Z.ltb_lt, ?Z.ltb_ge in *; lia.
  - split; assumption.
  - split; [lia | reflexivity].
Qed.

(** X1.  Whatever drag events arrive and in whatever order (enter, leave,
    over, drop; also leaves that no enter preceded), the depth counter never
    goes below zero and the drop zone is highlighted exactly while it is
    positive. *)
Theorem drag_highlight_follows_depth (b : Build) (s : State) (es : list DragEvent) :
  let d := fst (drag_run b (drag_init, s) es) in
  0 <= dragDepth d /\ isDragging d = (0 <? dragDepth d).
Proof.
  cbv zeta. unfold drag_run.
  assert (H : forall ds, 0 <= dragDepth (fst ds) ->
                         isDragging (fst ds) = (0 <? dragDepth (fst ds)) ->
                         0 <= dragDepth (fst (fold_left (drag_step b) es ds))
                         /\ isDragging (fst (fold_left (drag_step b) es ds))
                            = (0 <? dragDepth (fst (fold_left (drag_step b) es ds)))).
  { induction es as [|e es IH]; intros ds H0 Hd; cbn [fold_left]; [split; assumption|].
    destruct (drag_step_invariant b ds e H0 Hd) as [H0' Hd'].
    apply IH; assumption. }
  apply H; cbn; [lia | reflexivity].
Qed.

Lemma drag_balance_app (es : list DragEvent) (e : DragEvent) :
  drag_balance (es ++ [e])
  = drag_balance es + match e with DragEnter => 1 | DragLeave => -1 | _ => 0 end.
Proof.
  induction es as [|x es IH]; cbn [app drag_balance].
  - destruct e; reflexivity.
  - destruct x; rewrite IH; lia.
Qed.

(** X2.  While nothing is dropped and every leave answers an earlier enter
    (no prefix of the events has more leaves than enters), the depth counter
    is the number of enters minus the number of leaves: the highlight goes
    off exactly when the last enter has been answered. *)
Theorem drag_depth_counts (b : Build) (s : State) (es : list DragEvent) :
  forallb (fun e => negb (is_Drop e)) es = true ->
  (forall n, 0 <= drag_balance (firstn n es)) ->
  dragDepth (fst (drag_run b (drag_init, s) es)) = drag_balance es.
Proof.
  unfold drag_run. induction es as [|e es IH] using rev_ind; intros Hnd Hpre.
  - reflexivity.
  - rewrite forallb_app in Hnd. apply andb_true_iff in Hnd as [Hnd He].
    assert (Hpre' : forall n, 0 <= drag_balance (firstn n es)).
    { intros n. destruct (Nat.le_gt_cases n (List.length es)) as [L | L].
      - specialize (Hpre n). rewrite firstn_app in Hpre.
        replace (n - List.length es)%nat with 0%nat in Hpre by lia.
        cbn in Hpre. rewrite app_nil_r in Hpre. exact Hpre.
      - rewrite firstn_all2 by lia.
        specialize (Hpre (List.length es)). rewrite firstn_app, Nat.sub_diag in Hpre.
        cbn in Hpre. rewrite app_nil_r, firstn_all in Hpre. exact Hpre. }
    specialize (IH Hnd Hpre').
    pose proof (Hpre (List.length (es ++ [e]))) as Hall. rewrite firstn_all in Hall.
    rewrite drag_balance_app in Hall |- *.
    rewrite fold_left_app. cbn [fold_left].
    specialize (Hpre' (List.length es)). rewrite firstn_all in Hpre'.
    set (ds := fold_left (drag_step b) es (drag_init, s)) in *.
    destruct ds as [[dragging depth] s']. cbn [fst dragDepth] in IH. subst depth.
    destruct e; cbn [drag_step fst snd]; unfold onDragEnter, onDragLeave, onDragOver;
      cbn [fst snd isDragging dragDepth]; cbn in He; try discriminate.
    + destruct (drag_balance es =? 0); cbn; lia.
    + destruct (drag_balance es - 1 <=? 0) eqn:E; cbn; [|lia].
      apply Z.leb_le in E. lia.
    + lia.
Qed.

Lemma drag_depth_counts_witness :
  dragDepth (fst (drag_run Split (drag_init, init)
                    [DragEnter; DragEnter; DragOver; DragLeave])) = 1.
Proof.
  apply (drag_depth_counts Split init [DragEnter; DragEnter; DragOver; DragLeave]).
  - reflexivity.
  - intros [|[|[|[|[|n]]]]]; cbn; lia.
Defined.

(** ** Paste *)

(** X3.  A paste acts on the first clipboard item that is a file of an
    image type, and on nothing else: the items before it are skipped, the
    items after it are never looked at, and if that item yields no file
    nothing happens at all, even when a later item would.  A paste with no
    such item, or with no clipboard data, changes nothing.  The file goes
    through [handleFiles], validation included. *)
Theorem paste_takes_first_image_item
    (b : Build) (before after : list DataTransferItem) (it : DataTransferItem)
    (s : State) :
  forallb (fun x => negb (is_image_file x)) before = true ->
  (is_image_file it = true ->
   exec (onPaste b (Some (before ++ it :: after))) s
   = match getAsFile it with
     | Some f => exec (handleFiles b (Some [f])) s
     | None => s
     end)
  /\ exec (onPaste b (Some before)) s = s
  /\ exec (onPaste b None) s = s.
Proof.
  intros Hbefore. cbn [onPaste]. repeat split.
  - intros Hit. induction before as [|x before IH]; cbn [app onPaste_items].
    + rewrite Hit. destruct (getAsFile it); reflexivity.
    + cbn in Hbefore. apply andb_true_iff in Hbefore as [Hx Hbefore].
      apply negb_true_iff in Hx. rewrite Hx. apply IH, Hbefore.
  - induction before as [|x before IH]; cbn [onPaste_items]; [reflexivity|].
    cbn in Hbefore. apply andb_true_iff in Hbefore as [Hx Hbefore].
    apply negb_true_iff in Hx. rewrite Hx. apply IH, Hbefore.
Qed.

Lemma paste_takes_first_image_item_witness :
  is_image_file (mkItem "file" "image/png" (Some (mkBlob 4 "image/png" 5000)))
  = true
  /\ exec (onPaste Split
             (Some ([mkItem "string" "text/plain" None]
                      ++ mkItem "file" "image/png" (Some (mkBlob 4 "image/png" 5000))
                      :: [mkItem "file" "image/jpeg"
                                 (Some (mkBlob 5 "image/jpeg" 100))])))
          init
     = match getAsFile (mkItem "file" "image/png"
                               (Some (mkBlob 4 "image/png" 5000))) with
       | Some f => exec (handleFiles Split (Some [f])) init
       | None => init
       end.
Proof.
  split; [reflexivity|].
  exact (proj1 (paste_takes_first_image_item Split
                  [mkItem "string" "text/plain" None]
                  [mkItem "file" "image/jpeg" (Some (mkBlob 5 "image/jpeg" 100))]
                  (mkItem "file" "image/png" (Some (mkBlob 4 "image/png" 5000)))
                  init eq_refl) eq_refl).
Defined.

(** ** The jobs over whole runs *)

Local Ltac split_ifs' :=
  repeat (cbn -[N.eqb N.add N.ltb name_is message_or startsWith MAX_BYTES];
          match goal with
          | |- context [if ?c then _ else _] => destruct c
          | |- context [match ?c with Some _ => _ | None => _ end] => destruct c
          end);
  cbn -[N.eqb N.add N.ltb name_is message_or startsWith MAX_BYTES].

Lemma JobInv_view (s s' : State) : job_view s = job_view s' -> JobInv s -> JobInv s'.
Proof.
  unfold job_view. intros H I.
  injection H as H1 H2 H3 H4 H5 H6.
  destruct I. constructor;
    rewrite <- ?H1, <- ?H2, <- ?H3, <- ?H4, <- ?H5, <- ?H6; assumption.
Qed.

Lemma JobInv_init : JobInv init.
Proof.
  constructor; cbn.
  - reflexivity.
  - reflexivity.
  - intros j [].
  - intros j H. lia.
  - intros j [].
  - constructor.
  - reflexivity.
Qed.

Lemma handleFiles_job_view (b : Build) (files : option (list Blob)) (s : State) :
  job_view (exec (handleFiles b files) s) = job_view s.
Proof.
  destruct s as [pv ip rs er cj ca p ou rv ab wa cl ra pe mo ps].
  destruct b;
    cbv [exec handleFiles SudokuUploader.handleFiles Monolith.handleFiles
         bind ret get modify when setResult setError setImagePreviewUrl
         previewEffect createObjectURL downscaleImage_begin await
         revokeObjectURL];
    rewrite ?too_large_message;
    destruct (first_file files) as [file|]; try reflexivity;
    split_ifs'; reflexivity.
Qed.

Lemma downscaleImage_end_job_view (file : Blob) (maxSide : positive)
    (mime : string) (quality : Q) (url : Url) (br : Browser) (s : State) :
  job_view (snd (downscaleImage_end file maxSide mime quality url br s))
  = job_view s.
Proof.
  destruct s as [pv ip rs er cj ca p ou rv ab wa cl ra pe mo ps].
  cbv [downscaleImage_end downscaleImage_try bind ret modify new_canvas
       revokeObjectURL].
  destruct (createImageBitmap br); [|reflexivity].
  destruct (strict_eq _ 1); [reflexivity|].
  destruct (hasOffscreenCanvas br); reflexivity.
Qed.

Lemma job_ids_remove_downscale (k : nat) (ts : list Task) (file : Blob) (url : Url) :
  nth_error ts k = Some (AwaitDownscale file url) ->
  job_ids (remove_nth k ts) = job_ids ts.
Proof.
  revert k. induction ts as [|t ts IH]; intros [|k] H; cbn in *; try discriminate.
  - injection H as ->. reflexivity.
  - destruct t; cbn; rewrite (IH k H); reflexivity.
Qed.

Lemma job_ids_remove_process (k : nat) (ts : list Task) (jobId : N) :
  nth_error ts k = Some (AwaitProcess jobId) ->
  exists l1 l2, job_ids ts = l1 ++ jobId :: l2
                /\ job_ids (remove_nth k ts) = l1 ++ l2.
Proof.
  revert k. induction ts as [|t ts IH]; intros [|k] H; cbn in *; try discriminate.
  - injection H as ->. exists [], (job_ids ts). split; reflexivity.
  - destruct (IH k H) as (l1 & l2 & E1 & E2).
    destruct t as [f u | j]; cbn.
    + exists l1, l2. split; assumption.
    + exists (j :: l1), l2. rewrite E1, E2. split; reflexivity.
Qed.

Lemma existsb_eqb_In (j : N) (l : list N) :
  existsb (N.eqb j) l = true <-> In j l.
Proof.
  rewrite existsb_exists. split.
  - intros (x & Hx & E). apply N.eqb_eq in E. now subst.
  - intros H. exists j. split; [exact H | apply N.eqb_refl].
Qed.

Lemma existsb_eqb_notin (j : N) (l : list N) :
  ~ In j l -> existsb (N.eqb j) l = false.
Proof.
  intros H. destruct (existsb (N.eqb j) l) eqn:E; [|reflexivity].
  apply existsb_eqb_In in E. contradiction.
Qed.

(** A submission: the job before is cancelled, a new id is minted. *)
Lemma JobInv_submit (image : Blob) (s : State) :
  JobInv s -> JobInv (exec (submit image) s).
Proof.
  intros I.
  destruct s as [pv ip rs er cj ca p ou rv ab wa cl ra pe mo ps].
  destruct I as [I1 I2 I3 I4 I5 I6 I7]. cbn in *.
  cbv [exec submit bind ret get modify abort_currentAbort next_job
       setIsProcessing await].
  assert (Hnew : ~ In (cj + 1)%N (job_ids pe)).
  { intros H. apply I5 in H. lia. }
  assert (Hcount : count_down (N.to_nat (cj + 1))
                   = (cj + 1)%N :: count_down (N.to_nat cj)).
  { replace (N.to_nat (cj + 1)) with (S (N.to_nat cj)) by lia.
    cbn [count_down]. f_equal. lia. }
  assert (Hne : ((cj + 1 =? 0) = false)%N) by (apply N.eqb_neq; lia).
  subst ca. destruct (cj =? 0)%N eqn:E0;
    [apply N.eqb_eq in E0 | apply N.eqb_neq in E0];
    cbn -[N.eqb N.add count_down N.to_nat];
    constructor; cbn -[N.eqb N.add count_down N.to_nat].
  - rewrite Hcount, I1. reflexivity.
  - rewrite Hne. reflexivity.
  - intros j Hj. apply I3 in Hj. lia.
  - intros j Hj. lia.
  - intros j [<- | Hj]; [lia|]. apply I5 in Hj. lia.
  - constructor; assumption.
  - rewrite N.eqb_refl. reflexivity.
  - rewrite Hcount, I1. reflexivity.
  - rewrite Hne. reflexivity.
  - intros j [<- | Hj]; [lia|]. apply I3 in Hj. lia.
  - intros j Hj. destruct (N.eq_dec j cj) as [-> | Hn]; [now left|].
    right. apply I4. lia.
  - intros j [<- | Hj]; [lia|]. apply I5 in Hj. lia.
  - constructor; assumption.
  - rewrite N.eqb_refl. reflexivity.
Qed.

Lemma handleFiles_downscaled_JobInv (b : Build) (file : Blob) (r : Settled Blob)
    (s : State) :
  JobInv s -> JobInv (exec (handleFiles_downscaled b file r) s).
Proof.
  intros I.
  assert (H : exists image s0, job_view s0 = job_view s
              /\ exec (handleFiles_downscaled b file r) s = exec (submit image) s0).
  { destruct s as [pv ip rs er cj ca p ou rv ab wa cl ra pe mo ps].
    destruct b, r as [blob | e];
      cbv [exec handleFiles_downscaled SudokuUploader.handleFiles_downscaled
           Monolith.handleFiles_downscaled Sudoku.handleImage bind ret
           console_warn modify setError setResult];
      eexists; eexists; (split; [|reflexivity]); reflexivity. }
  destruct H as (image & s0 & Hv & ->).
  apply JobInv_submit. apply (JobInv_view s); [symmetry; exact Hv | exact I].
Qed.

(** A processing call settles. *)
Lemma JobInv_settled (s : State) (k : nat) (jobId : N) (r : Settled string) :
  JobInv s ->
  nth_error (pending s) k = Some (AwaitProcess jobId) ->
  JobInv (exec (settled jobId r) (with_pending (remove_nth k (pending s)) s)).
Proof.
  intros I Hk.
  destruct (job_ids_remove_process k (pending s) jobId Hk) as (l1 & l2 & E1 & E2).
  destruct s as [pv ip rs er cj ca p ou rv ab wa cl ra pe mo ps].
  destruct I as [I1 I2 I3 I4 I5 I6 I7]. cbn in *.
  rewrite E1 in *.
  assert (Hsub : forall j, In j (l1 ++ l2) -> In j (l1 ++ jobId :: l2)).
  { intros j Hj. apply in_app_or in Hj as [Hj | Hj]; apply in_or_app;
      [left | right; right]; assumption. }
  assert (Hnd : NoDup (l1 ++ l2)) by (now apply NoDup_remove_1 in I6).
  assert (Hout : ~ In jobId (l1 ++ l2)) by (now apply NoDup_remove_2 in I6).
  assert (Hflag : forall c, c <> jobId ->
            existsb (N.eqb c) (l1 ++ jobId :: l2) = existsb (N.eqb c) (l1 ++ l2)).
  { intros c Hc. rewrite !existsb_app. cbn.
    assert (E : (c =? jobId)%N = false) by (apply N.eqb_neq; exact Hc).
    rewrite E. reflexivity. }
  assert (G : forall s', job_view s'
                = ((if (jobId =? cj)%N then false else ip), cj, ca, ab,
                   map snd cl, l1 ++ l2) ->
              JobInv s').
  { intros s' Hv.
    assert (Ej : forall l, job_ids (map AwaitProcess l) = l).
    { induction l as [|x l IHl]; cbn; [reflexivity | now rewrite IHl]. }
    apply (JobInv_view
             (mkState pv (if (jobId =? cj)%N then false else ip) rs er cj ca p
                      ou rv ab wa cl ra (map AwaitProcess (l1 ++ l2)) mo ps)).
    - rewrite Hv. unfold job_view. cbn -[N.eqb]. rewrite Ej. reflexivity.
    - constructor; cbn -[N.eqb]; rewrite ?Ej; auto.
      destruct (jobId =? cj)%N eqn:E.
      + apply N.eqb_eq in E. subst jobId. symmetry.
        apply existsb_eqb_notin, Hout.
      + apply N.eqb_neq in E. rewrite I7. apply Hflag. congruence. }
  apply G. unfold job_view.
  cbv [exec settled bind ret get modify when setResult setError setIsProcessing].
  destruct r as [res | e]; cbn -[N.eqb name_is message_or]; rewrite ?E2.
  - destruct (jobId =? cj)%N eqn:E; cbn -[N.eqb]; rewrite ?E;
      cbn -[N.eqb]; rewrite ?E2; reflexivity.
  - destruct (name_is e "AbortError"); cbn -[N.eqb message_or];
      destruct (jobId =? cj)%N eqn:E; cbn -[N.eqb]; rewrite ?E;
      cbn -[N.eqb]; rewrite ?E2; reflexivity.
Qed.

Lemma JobInv_cleanup (b : Build) (s : State) :
  JobInv s -> JobInv (with_mounted false (exec (onCleanup b) s)).
Proof.
  intros I.
  destruct s as [pv ip rs er cj ca p ou rv ab wa cl ra pe mo ps].
  destruct I as [I1 I2 I3 I4 I5 I6 I7]. cbn in *.
  destruct b;
    cbv [exec onCleanup SudokuUploader.onCleanup Monolith.onCleanup
         previewCleanup bind ret get modify revokeObjectURL abort_currentAbort].
  - destruct pv; cbn; constructor; cbn; assumption.
  - subst ca. destruct (cj =? 0)%N eqn:E0;
      [apply N.eqb_eq in E0 | apply N.eqb_neq in E0];
      destruct pv; cbn -[N.eqb]; constructor; cbn -[N.eqb];
      rewrite ?E0; try assumption;
      try (apply N.eqb_neq in E0; rewrite E0; reflexivity);
      try (intros j [<- | Hj]; [lia | now apply I3]);
      try (intros j Hj; right; now apply I4).
    all: subst cj; cbn; auto.
Qed.

Lemma JobInv_step (b : Build) (s : State) (e : Event) :
  JobInv s -> JobInv (step b s e).
Proof.
  intros I. destruct e as [files | k a |]; cbn [step].
  - destruct (mounted s); [|exact I].
    apply (JobInv_view s); [symmetry; apply handleFiles_job_view | exact I].
  - destruct (nth_error (pending s) k) as [t|] eqn:Hk; [|exact I].
    destruct t as [file url | jobId], a as [br | r]; cbn [resume]; try exact I.
    + rewrite exec_bind. apply handleFiles_downscaled_JobInv.
      eapply JobInv_view; [symmetry; apply downscaleImage_end_job_view|].
      eapply JobInv_view; [|exact I].
      unfold job_view. cbn.
      rewrite (job_ids_remove_downscale k (pending s) file url Hk).
      destruct s; reflexivity.
    + now apply JobInv_settled.
  - destruct (mounted s); [now apply JobInv_cleanup | exact I].
Qed.

Lemma JobInv_run (b : Build) (es : list Event) (s : State) :
  JobInv s -> JobInv (run b s es).
Proof.
  revert s. induction es as [|e es IH]; intros s I; cbn; [exact I|].
  apply IH, JobInv_step, I.
Qed.

Lemma In_count_down (j : N) (n : nat) :
  In j (count_down n) <-> (1 <= j <= N.of_nat n)%N.
Proof.
  induction n as [|n IH]; cbn [count_down In].
  - split; [intros [] | lia].
  - rewrite IH. split.
    + intros [<- | H]; lia.
    + intros H. destruct (N.eq_dec j (N.of_nat (S n))) as [-> | Hn];
        [now left | right; lia].
Qed.

(** X4.  In every run of either build, the processing function has been
    called exactly once for each job id from 1 up to the current job
    counter, in increasing order of id: no job is processed twice, no id is
    skipped or reused. *)
Theorem one_processing_call_per_job (b : Build) (es : list Event) :
  let s := run b init es in
  map snd (calls s) = count_down (N.to_nat (currentJob s))
  /\ List.length (calls s) = N.to_nat (currentJob s)
  /\ NoDup (map snd (calls s)).
Proof.
  cbv zeta. pose proof (JobInv_run b es init JobInv_init) as I.
  pose proof (job_calls _ I) as H. split; [exact H|]. split.
  - rewrite <- (length_map snd), H.
    generalize (N.to_nat (currentJob (run b init es))).
    induction n as [|n IH]; cbn; [reflexivity | now rewrite IH].
  - rewrite H. generalize (N.to_nat (currentJob (run b init es))).
    induction n as [|n IH]; cbn [count_down]; constructor; [|exact IH].
    rewrite In_count_down. lia.
Qed.

(** X5.  In every run of either build, the controller of every job before
    the current one has been aborted (submitting supersedes by cancelling),
    the controller held in [currentAbort] is the one of the current job, and
    only controllers of jobs that exist are ever aborted. *)
Theorem superseded_jobs_are_cancelled (b : Build) (es : list Event) :
  let s := run b init es in
  Forall (fun j => In j (aborted s)) (count_down (N.to_nat (currentJob s) - 1))
  /\ currentAbort s
     = (if (currentJob s =? 0)%N then None else Some (currentJob s))
  /\ Forall (fun j => (1 <= j <= currentJob s)%N) (aborted s).
Proof.
  cbv zeta. pose proof (JobInv_run b es init JobInv_init) as I.
  split; [|split].
  - apply Forall_forall. intros j Hj. apply In_count_down in Hj.
    apply (job_superseded _ I). lia.
  - apply (job_controller _ I).
  - apply Forall_forall. apply (job_aborted_bound _ I).
Qed.

(** X6.  In every run of either build, the processing banner is on exactly
    when the call of the current job is still suspended: it is never stuck
    on after the latest job has settled, and never off while it is in
    flight. *)
Theorem processing_flag_tracks_current_job (b : Build) (es : list Event) :
  let s := run b init es in
  isProcessing s = existsb (N.eqb (currentJob s)) (job_ids (pending s))
  /\ NoDup (job_ids (pending s)).
Proof.
  cbv zeta. pose proof (JobInv_run b es init JobInv_init) as I.
  split; [apply (job_flag _ I) | apply (job_pending_nodup _ I)].
Qed.

(** In the page build only a submission aborts a controller, and it aborts
    the one of the job before. *)
Lemma split_aborted_below (es : list Event) (s : State) :
  JobInv s ->
  Forall (fun j => (j < currentJob s)%N) (aborted s) ->
  Forall (fun j => (j < currentJob (run Split s es))%N) (aborted (run Split s es)).
Proof.
  revert s. induction es as [|e es IH]; intros s I H; cbn [run fold_left]; [exact H|].
  apply IH; [apply JobInv_step, I|].
  destruct e as [files | k a |]; cbn [step].
  - destruct (mounted s); [|exact H].
    pose proof (handleFiles_job_view Split files s) as V. unfold job_view in V.
    assert (V2 : currentJob (exec (handleFiles Split files) s) = currentJob s)
      by congruence.
    assert (V4 : aborted (exec (handleFiles Split files) s) = aborted s)
      by congruence.
    rewrite V2, V4. exact H.
  - destruct (nth_error (pending s) k) as [t|] eqn:Hk; [|exact H].
    destruct t as [file url | jobId], a as [br | r]; cbn [resume]; try exact H.
    + rewrite exec_bind.
      pose proof (downscaleImage_end_job_view file maxSide_default mime_default
                    quality_default url br
                    (with_pending (remove_nth k (pending s)) s)) as V.
      set (s1 := snd (downscaleImage_end _ _ _ _ _ _ _)) in *.
      set (r := fst (downscaleImage_end _ _ _ _ _ _ _)).
      unfold job_view in V. injection V as _ V2 V3 V4 _ _.
      pose proof (job_controller _ I) as Hc.
      destruct s1 as [pv ip rs er cj ca p ou rv ab wa cl ra pe mo ps].
      destruct s as [pv' ip' rs' er' cj' ca' p' ou' rv' ab' wa' cl' ra' pe' mo' ps'].
      cbn in *. subst cj ca ab.
      cbv [exec handleFiles_downscaled SudokuUploader.handleFiles_downscaled
           Sudoku.handleImage submit bind ret get modify abort_currentAbort
           next_job setIsProcessing await console_warn setError setResult].
      assert (Hw : Forall (fun j => (j < cj' + 1)%N) ab').
      { eapply Forall_impl; [|exact H]. cbn. intros; lia. }
      destruct r; destruct ca' as [c|]; cbn -[N.add];
        try exact Hw; constructor; try exact Hw;
        destruct (cj' =? 0)%N; try discriminate; injection Hc as ->; lia.
    + pose proof (settled_view jobId r (with_pending (remove_nth k (pending s)) s)) as _.
      destruct s as [pv' ip' rs' er' cj' ca' p' ou' rv' ab' wa' cl' ra' pe' mo' ps'].
      cbn in H.
      cbv [exec settled bind ret get modify when setResult setError setIsProcessing].
      destruct r as [res | e]; cbn -[N.eqb name_is message_or].
      * destruct (jobId =? cj')%N eqn:E; cbn -[N.eqb]; rewrite ?E; exact H.
      * destruct (name_is e "AbortError"); cbn -[N.eqb message_or];
          destruct (jobId =? cj')%N eqn:E; cbn -[N.eqb]; rewrite ?E; exact H.
  - destruct (mounted s); [|exact H].
    destruct s as [pv' ip' rs' er' cj' ca' p' ou' rv' ab' wa' cl' ra' pe' mo' ps'].
    cbv [exec onCleanup SudokuUploader.onCleanup previewCleanup bind ret get
         modify revokeObjectURL].
    destruct pv'; exact H.
Qed.

(** X7.  In the page build the controller of the current job is never
    aborted, whatever happens, disposal of the page included: a job is
    cancelled only by the submission of the next one.  (The one-file
    uploader, whose clean-up aborts, differs in this.) *)
Theorem page_never_cancels_current_job (es : list Event) :
  let s := run Split init es in
  Forall (fun j => (j < currentJob s)%N) (aborted s)
  /\ ~ In (currentJob s) (aborted s).
Proof.
  cbv zeta.
  pose proof (split_aborted_below es init JobInv_init (Forall_nil _)) as H.
  split; [exact H|].
  intros Hin. rewrite Forall_forall in H. apply H in Hin. lia.
Qed.

(** ** What the page shows *)

Lemma page_submission_shows (file : Blob) (r : Settled Blob) (s : State) :
  let s' := exec (handleFiles_downscaled Split file r) s in
  result s' = EmptyString /\ error s' = EmptyString /\ isProcessing s' = true.
Proof.
  destruct s as [pv ip rs er cj ca p ou rv ab wa cl ra pe mo ps].
  cbv [exec handleFiles_downscaled SudokuUploader.handleFiles_downscaled
       Sudoku.handleImage submit bind ret get modify abort_currentAbort
       next_job setIsProcessing await console_warn setError setResult].
  destruct r, ca; cbn; repeat split; reflexivity.
Qed.

Lemma page_handleFiles_shows (files : option (list Blob)) (s : State) :
  let s' := exec (handleFiles Split files) s in
  result s' = result s /\ error s' = error s /\ isProcessing s' = isProcessing s.
Proof.
  destruct s as [pv ip rs er cj ca p ou rv ab wa cl ra pe mo ps].
  cbv [exec handleFiles SudokuUploader.handleFiles bind ret get modify when
       setImagePreviewUrl previewEffect createObjectURL downscaleImage_begin
       await revokeObjectURL].
  destruct (first_file files) as [file|]; [|repeat split; reflexivity].
  destruct (negb _); [repeat split; reflexivity|].
  destruct (MAX_BYTES <? size file)%N; [repeat split; reflexivity|].
  cbn -[N.eqb N.add]. destruct p as [u|]; cbn -[N.eqb N.add];
    try destruct (negb _); cbn; repeat split; reflexivity.
Qed.

Lemma page_cleanup_shows (s : State) :
  let s' := with_mounted false (exec (onCleanup Split) s) in
  result s' = result s /\ error s' = error s /\ isProcessing s' = isProcessing s.
Proof.
  destruct s as [pv ip rs er cj ca p ou rv ab wa cl ra pe mo ps].
  cbv [exec onCleanup SudokuUploader.onCleanup previewCleanup bind ret get
       modify revokeObjectURL].
  destruct pv; cbn; repeat split; reflexivity.
Qed.

(** X8.  In the page build, in every run, no result is on display while the
    processing banner is: a submission clears the result before it raises
    the flag, and only the completion that lowers the flag sets one. *)
Theorem page_shows_no_result_while_processing (es : list Event) :
  let s := run Split init es in
  if isProcessing s then result s = EmptyString else True.
Proof.
  cbv zeta.
  assert (H : forall s, (if isProcessing s then result s = EmptyString else True) ->
                        if isProcessing (run Split s es)
                        then result (run Split s es) = EmptyString else True).
  { induction es as [|e es IH]; intros s H; cbn [run fold_left]; [exact H|].
    apply IH. destruct e as [files | k a |]; cbn [step].
    - destruct (mounted s); [|exact H].
      destruct (page_handleFiles_shows files s) as (-> & _ & ->). exact H.
    - destruct (nth_error (pending s) k) as [t|]; [|exact H].
      destruct t as [file url | jobId], a as [br | r]; cbn [resume]; try exact H.
      + rewrite exec_bind.
        destruct (page_submission_shows file
                    (fst (downscaleImage_end file maxSide_default mime_default
                            quality_default url br
                            (with_pending (remove_nth k (pending s)) s)))
                    (snd (downscaleImage_end file maxSide_default mime_default
                            quality_default url br
                            (with_pending (remove_nth k (pending s)) s))))
          as (-> & _ & ->).
        reflexivity.
      + destruct s as [pv ip rs er cj ca p ou rv ab wa cl ra pe mo ps].
        cbn in H.
        cbv [exec settled bind ret get modify when setResult setError
             setIsProcessing].
        destruct r as [res | e]; cbn -[N.eqb name_is message_or].
        * destruct (jobId =? cj)%N eqn:E; cbn -[N.eqb]; rewrite ?E; cbn;
            [exact I | exact H].
        * destruct (name_is e "AbortError"); cbn -[N.eqb message_or];
            destruct (jobId =? cj)%N eqn:E; cbn -[N.eqb]; rewrite ?E; cbn;
            try exact I; exact H.
    - destruct (mounted s); [|exact H].
      destruct (page_cleanup_shows s) as (-> & _ & ->). exact H. }
  apply H. exact I.
Qed.

(** X9.  In the page build, as long as every processing call fulfils or is
    cancelled, which is all the repository's stub can do, the error banner
    stays empty through the whole run: neither a rejected file, nor a
    failed downscale, nor a cancelled or superseded job ever sets it. *)
Theorem page_shows_no_error_with_stub (es : list Event) :
  forallb stub_like es = true ->
  error (run Split init es) = EmptyString.
Proof.
  assert (H : forall s, error s = EmptyString -> forallb stub_like es = true ->
                        error (run Split s es) = EmptyString).
  { induction es as [|e es IH]; intros s H Hes; cbn [run fold_left]; [exact H|].
    cbn [forallb] in Hes. apply andb_true_iff in Hes as [He Hes].
    apply IH; [|exact Hes]. destruct e as [files | k a |]; cbn [step].
    - destruct (mounted s); [|exact H].
      destruct (page_handleFiles_shows files s) as (_ & -> & _). exact H.
    - destruct (nth_error (pending s) k) as [t|]; [|exact H].
      destruct t as [file url | jobId], a as [br | r]; cbn [resume]; try exact H.
      + rewrite exec_bind. apply page_submission_shows.
      + destruct s as [pv ip rs er cj ca p ou rv ab wa cl ra pe mo ps].
        cbn in H. cbn [stub_like] in He.
        cbv [exec settled bind ret get modify when setResult setError
             setIsProcessing].
        destruct r as [res | e]; cbn -[N.eqb name_is message_or].
        * destruct (jobId =? cj)%N eqn:E; cbn -[N.eqb]; rewrite ?E; exact H.
        * rewrite He. cbn -[N.eqb].
          destruct (jobId =? cj)%N; exact H.
    - destruct (mounted s); [|exact H].
      destruct (page_cleanup_shows s) as (_ & -> & _). exact H. }
  intros Hes. apply H; [reflexivity | exact Hes].
Qed.

Lemma page_shows_no_error_with_stub_witness :
  let png := mkBlob 1 "image/png" 1000 in
  let bad := mkBlob 2 "text/plain" 10 in
  let br := mkBrowser (Rejected (Error "InvalidStateError" "cannot decode"))
                      true (Rejected (Error "Error" "unused")) None in
  error (run Split init
           [Files (Some [bad]); Files (Some [png]); Settle 0 (Decoded br);
            Files (Some [png]); Settle 0 (Decoded br);
            Settle 1 (Processed (Rejected (DOMException "Aborted" "AbortError")));
            Settle 0 (Processed (Fulfilled "done"%string)); Cleanup])
  = EmptyString.
Proof.
  cbv zeta. apply page_shows_no_error_with_stub. reflexivity.
Defined.

(** X10.  A processing failure that is not a cancellation always gives the
    user something to read: the error is the failure's own message when it
    has a non-empty one, and the fixed text when the failure has no message
    or an empty one; in either case it is not empty (the banner is rendered
    only for a non-empty error). *)
Theorem failure_message_is_never_empty (jobId : N) (e : Thrown) (s : State) :
  name_is e "AbortError" = false ->
  error (exec (settled jobId (Rejected e)) s) <> EmptyString
  /\ (forall m, message e = Some m -> m <> EmptyString ->
      error (exec (settled jobId (Rejected e)) s) = m)
  /\ (message e = None \/ message e = Some EmptyString ->
      error (exec (settled jobId (Rejected e)) s) = "Image processing error"%string).
Proof.
  intros Hother. rewrite (failure_sets_error jobId e s Hother).
  unfold message_or. split; [|split].
  - destruct (message e) as [[|c m]|]; discriminate.
  - intros m -> Hm. destruct m; [contradiction | reflexivity].
  - intros [-> | ->]; reflexivity.
Qed.

Lemma failure_message_is_never_empty_witness :
  name_is (Error "RuntimeError" "wasm trap") "AbortError" = false
  /\ error (exec (settled 1 (Rejected (Error "RuntimeError" "wasm trap"))) init)
     = "wasm trap"%string.
Proof.
  split; [reflexivity|].
  exact (proj1 (proj2 (failure_message_is_never_empty 1
                         (Error "RuntimeError" "wasm trap") init eq_refl))
               "wasm trap"%string eq_refl ltac:(discriminate)).
Defined.

(** X11.  A submission followed by the completion of that same job shows
    exactly that job's outcome, whatever was on display before: on success
    the result is its text with no error, on a failure the error is its
    message with no result, and in both cases the processing banner is
    off. *)
Theorem latest_submission_outcome_is_shown
    (image : Blob) (res : string) (e : Thrown) (s : State) :
  let s1 := exec (Sudoku.handleImage image) s in
  let ok := exec (Sudoku.handleImage_settled (currentJob s1) (Fulfilled res)) s1 in
  let ko := exec (Sudoku.handleImage_settled (currentJob s1) (Rejected e)) s1 in
  currentJob s1 = (currentJob s + 1)%N
  /\ (result ok = res /\ error ok = EmptyString /\ isProcessing ok = false)
  /\ (name_is e "AbortError" = false ->
      result ko = EmptyString
      /\ error ko = message_or e "Image processing error"
      /\ isProcessing ko = false).
Proof.
  destruct s as [pv ip rs er cj ca p ou rv ab wa cl ra pe mo ps].
  cbv [exec Sudoku.handleImage Sudoku.handleImage_settled submit settled bind
       ret get modify abort_currentAbort next_job setIsProcessing await
       setError setResult when].
  destruct ca; cbn -[N.eqb N.add name_is message_or];
    rewrite !N.eqb_refl; cbn -[N.eqb N.add name_is message_or];
    rewrite ?N.eqb_refl; (split; [reflexivity|]); (split; [repeat split; reflexivity|]);
    intros ->; cbn -[N.eqb N.add message_or]; rewrite ?N.eqb_refl;
    repeat split; reflexivity.
Qed.

Lemma latest_submission_outcome_is_shown_witness :
  let s1 := exec (Sudoku.handleImage (mkBlob 1 "image/png" 10)) init in
  error (exec (Sudoku.handleImage_settled (currentJob s1)
                 (Rejected (Error "Error" "wasm trap"))) s1)
  = "wasm trap"%string.
Proof.
  cbv zeta.
  apply (proj2 (proj2 (latest_submission_outcome_is_shown
                         (mkBlob 1 "image/png" 10) EmptyString
                         (Error "Error" "wasm trap") init))).
  reflexivity.
Defined.

(** ** The stub, further *)

(** X12.  Once the stub has settled, nothing that happens later changes
    its outcome: an abort after the 900 ms does not turn a result into a
    rejection, and time passing after an abort does not turn the rejection
    into a result. *)
Theorem processImageInWasm_settles_once
    (imageBlob : Blob) (sig : option bool) (jobId : N) (ts more : list Tick)
    (o : Settled string) :
  processImageInWasm imageBlob sig jobId ts = Some o ->
  processImageInWasm imageBlob sig jobId (ts ++ more) = Some o.
Proof.
  unfold processImageInWasm. rewrite fold_left_app.
  destruct (outcome (fold_left tick ts (executor sig))) as [x|] eqn:E;
    [|discriminate].
  rewrite (ticks_settled more _ x E). intros H. exact H.
Qed.

Lemma processImageInWasm_settles_once_witness :
  processImageInWasm (mkBlob 1 "image/webp" 64) (Some false) 2
    ([Elapse 900] ++ [Abort; Elapse 5000])
  = Some (Fulfilled "WASM stub ✓ (job #2). Bytes: 64"%string).
Proof.
  apply (processImageInWasm_settles_once (mkBlob 1 "image/webp" 64) (Some false)
           2 [Elapse 900] [Abort; Elapse 5000]).
  reflexivity.
Defined.

(** X13.  Called without a signal the stub cannot be cancelled: whatever
    aborts are attempted, it is pending until 900 ms have elapsed and has
    resolved with its text from then on. *)
Theorem processImageInWasm_without_signal
    (imageBlob : Blob) (jobId : N) (ts : list Tick) :
  processImageInWasm imageBlob None jobId ts
  = if (900 <=? elapsed ts)%N
    then Some (Fulfilled (stub_text jobId imageBlob))
    else None.
Proof.
  unfold processImageInWasm.
  assert (H : fold_left tick ts (executor None)
              = mkWait (elapsed ts)
                       (if (900 <=? elapsed ts)%N then None else Some 900%N)
                       false None
                       (if (900 <=? elapsed ts)%N then Some (Fulfilled tt) else None)).
  { induction ts as [|t ts IH] using rev_ind; [reflexivity|].
    rewrite fold_left_app, IH, elapsed_app. cbn.
    destruct t as [ms|]; cbn; [|reflexivity].
    destruct (900 <=? elapsed ts)%N eqn:E.
    - apply N.leb_le in E.
      assert (E' : (900 <=? elapsed ts + ms)%N = true) by (apply N.leb_le; lia).
      rewrite E'. reflexivity.
    - destruct (900 <=? elapsed ts + ms)%N; reflexivity. }
  rewrite H. cbn. destruct (900 <=? elapsed ts)%N; reflexivity.
Qed.

Lemma string_of_uint_digits (d : Decimal.uint) :
  all_digits (NilEmpty.string_of_uint d) = true.
Proof. induction d; cbn; try rewrite IHd; reflexivity. Qed.

Lemma toString_digits (n : N) : all_digits (toString n) = true.
Proof.
  unfold toString, NilZero.string_of_uint.
  destruct (N.to_uint n); try reflexivity; apply string_of_uint_digits.
Qed.

(** A run of digits ends where the first other character stands. *)
Lemma digits_then_other (d d' r r' : string) (c : ascii) :
  all_digits d = true -> all_digits d' = true -> is_digit c = false ->
  (d ++ String c r)%string = (d' ++ String c r')%string ->
  d = d' /\ r = r'.
Proof.
  intros Hd. revert d'.
  induction d as [|x d IH]; intros [|x' d'] Hd' Hc H; cbn in *.
  - injection H as ->. split; reflexivity.
  - injection H as <- _. apply andb_true_iff in Hd' as [Hx _]. congruence.
  - injection H as -> _. apply andb_true_iff in Hd as [Hx _]. congruence.
  - injection H as -> H.
    apply andb_true_iff in Hd as [_ Hd]. apply andb_true_iff in Hd' as [_ Hd'].
    destruct (IH Hd d' Hd' Hc H) as [-> ->]. split; reflexivity.
Qed.

(** X14.  The text the stub returns tells the job and the size apart: two
    calls return the same text only if they were given the same job id and
    blobs of the same size. *)
Theorem stub_text_determines_job_and_size
    (jobId jobId' : N) (imageBlob imageBlob' : Blob) :
  stub_text jobId imageBlob = stub_text jobId' imageBlob' ->
  jobId = jobId' /\ size imageBlob = size imageBlob'.
Proof.
  unfold stub_text. intros H.
  cbn [append] in H.
  repeat match type of H with
         | String _ _ = String _ _ => injection H as H
         end.
  change ("). Bytes: " ++ toString (size imageBlob))%string
    with (String ")" ("." ++ String " " ("Bytes: " ++ toString (size imageBlob))))%string in H.
  change ("). Bytes: " ++ toString (size imageBlob'))%string
    with (String ")" ("." ++ String " " ("Bytes: " ++ toString (size imageBlob'))))%string in H.
  apply digits_then_other in H;
    [|apply toString_digits | apply toString_digits | reflexivity].
  destruct H as [Hj H]. cbn [append] in H.
  repeat match type of H with
         | String _ _ = String _ _ => injection H as H
         end.
  split; apply toString_injective; assumption.
Qed.

Lemma stub_text_determines_job_and_size_witness :
  3%N = 3%N /\ size (mkBlob 1 "image/png" 77) = size (mkBlob 2 "image/webp" 77).
Proof.
  apply (stub_text_determines_job_and_size 3 3 (mkBlob 1 "image/png" 77)
           (mkBlob 2 "image/webp" 77)).
  reflexivity.
Defined.

(** ** Object URLs over whole runs *)

Lemma Released_view (s s' : State) :
  url_view s = url_view s' -> Released s -> Released s'.
Proof.
  unfold url_view. intros H R.
  injection H as H1 H2 H3 H4 H5 H6 H7.
  destruct R. constructor;
    rewrite <- ?H3, <- ?H4, <- ?H5, <- ?H7; assumption.
Qed.

Lemma Released_init : Released init.
Proof. constructor; cbn; [constructor | intros u H; lia]. Qed.

Lemma displayed_not_revoked (s : State) (u : Url) :
  Inv s -> mounted s = true -> imagePreviewUrl s = Some u -> ~ In u (revoked s).
Proof.
  intros I Hm Hu.
  pose proof (inv_count _ I) as Hc. pose proof (inv_current _ I) as Hcur.
  rewrite Hu in Hcur. destruct Hcur as [rest Hp].
  rewrite Forall_forall in Hc. specialize (Hc u).
  rewrite Hp in Hc. specialize (Hc (or_introl eq_refl)).
  unfold displayed in Hc. rewrite Hm, Hu in Hc. cbn in Hc.
  rewrite N.eqb_refl in Hc. apply (count_occ_not_In N.eq_dec). exact Hc.
Qed.

Lemma Released_accept (s : State) (file : Blob) :
  Inv s -> Released s -> mounted s = true ->
  Released (exec (objectUrl <- createObjectURL file ;;
                  setImagePreviewUrl objectUrl ;;
                  url <- downscaleImage_begin file ;;
                  await (AwaitDownscale file url)) s).
Proof.
  intros I R Hm.
  pose proof (fun u => displayed_not_revoked s u I Hm) as Hdisp.
  pose proof (inv_prev _ I) as Hprev.
  pose proof (inv_fresh_previews _ I) as Hfp.
  pose proof (inv_current _ I) as Hcur.
  destruct R as [R1 R2].
  destruct s as [pv ip rs er cj ca p ou rv ab wa cl ra pe mo ps].
  cbn in *. subst p mo.
  cbv [exec bind ret get modify when setImagePreviewUrl previewEffect
       createObjectURL downscaleImage_begin await revokeObjectURL].
  cbn -[N.eqb N.add].
  assert (Hcover : forall (rv' : list Url), incl rv rv' ->
            forall u, (u < ou + 1 + 1)%N ->
              In u (ou :: ps) \/ In u ((ou + 1)%N :: temp_urls pe) \/ In u rv').
  { intros rv' Hincl u Hu.
    destruct (N.eq_dec u ou) as [-> | N1]; [left; now left|].
    destruct (N.eq_dec u (ou + 1)) as [-> | N2]; [right; left; now left|].
    destruct (R2 u) as [H | [H | H]]; [lia | | |].
    - left. now right.
    - right. left. now right.
    - right. right. apply Hincl, H. }
  destruct pv as [cur|]; cbn -[N.eqb N.add].
  - assert (Hne : (cur =? ou)%N = false).
    { apply N.eqb_neq. destruct Hcur as [rest ->].
      specialize (Hfp cur (or_introl eq_refl)). lia. }
    rewrite Hne. cbn -[N.eqb N.add].
    constructor; cbn -[N.eqb N.add].
    + constructor; [|exact R1].
      apply (Hdisp cur eq_refl).
    + apply (Hcover (cur :: rv)). intros x Hx. now right.
  - constructor; cbn -[N.eqb N.add]; [exact R1|].
    apply (Hcover rv). intros x Hx. exact Hx.
Qed.

Lemma Released_handleFiles (b : Build) (files : option (list Blob)) (s : State) :
  Inv s -> Released s -> mounted s = true ->
  Released (exec (handleFiles b files) s).
Proof.
  intros I R Hm. destruct b; cbn [handleFiles];
    unfold SudokuUploader.handleFiles, Monolith.handleFiles;
    (destruct (first_file files) as [file|]; [|exact R]).
  - destruct (negb _); [exact R|].
    destruct (MAX_BYTES <? size file)%N; [exact R|].
    now apply Released_accept.
  - rewrite exec_bind, exec_bind.
    set (s0 := snd (setResult _ (snd (setError _ s)))).
    assert (I0 : Inv s0) by (apply (Inv_view s); [reflexivity | exact I]).
    assert (R0 : Released s0) by (apply (Released_view s); [reflexivity | exact R]).
    destruct (negb _); [apply (Released_view s0); [reflexivity | exact R0]|].
    destruct (MAX_BYTES <? size file)%N;
      [apply (Released_view s0); [reflexivity | exact R0]|].
    apply Released_accept; [exact I0 | exact R0 | exact Hm].
Qed.

Lemma Released_release (s : State) (k : nat) (file : Blob) (url : Url) :
  Inv s -> Released s ->
  nth_error (pending s) k = Some (AwaitDownscale file url) ->
  Released (with_revoked (url :: revoked s)
              (with_pending (remove_nth k (pending s)) s)).
Proof.
  intros I [R1 R2] Hk.
  destruct (temp_urls_remove_downscale k (pending s) file url Hk)
    as (l1 & l2 & E1 & E2).
  pose proof (inv_temps_live _ I) as Hlive.
  destruct s as [pv ip rs er cj ca p ou rv ab wa cl ra pe mo ps].
  cbn in *. rewrite E1 in *.
  constructor; cbn; rewrite ?E2.
  - constructor; [|exact R1]. apply Hlive, in_elt.
  - intros u Hu. destruct (R2 u Hu) as [H | [H | H]].
    + now left.
    + apply in_app_or in H as [H | [<- | H]].
      * right. left. apply in_or_app. now left.
      * right. right. now left.
      * right. left. apply in_or_app. now right.
    + right. right. now right.
Qed.

Lemma Released_cleanup (b : Build) (s : State) :
  Inv s -> Released s -> mounted s = true ->
  Released (with_mounted false (exec (onCleanup b) s)).
Proof.
  intros I R Hm.
  apply (Released_view (with_mounted false (exec previewCleanup s))).
  { destruct s as [pv ip rs er cj ca p ou rv ab wa cl ra pe mo ps].
    destruct b; [reflexivity|].
    cbv [onCleanup Monolith.onCleanup exec previewCleanup bind ret get modify
         revokeObjectURL abort_currentAbort].
    destruct pv, ca; reflexivity. }
  pose proof (fun u => displayed_not_revoked s u I Hm) as Hdisp.
  destruct R as [R1 R2].
  destruct s as [pv ip rs er cj ca p ou rv ab wa cl ra pe mo ps].
  cbn in *.
  cbv [exec previewCleanup bind ret get modify revokeObjectURL]. cbn.
  destruct pv as [cur|]; cbn; constructor; cbn; try assumption.
  - constructor; [|exact R1]. apply (Hdisp cur eq_refl).
  - intros u Hu. destruct (R2 u Hu) as [H | [H | H]]; auto.
Qed.

Lemma Released_step (b : Build) (s : State) (e : Event) :
  Inv s -> Released s -> Released (step b s e).
Proof.
  intros I R. destruct e as [files | k a |]; cbn [step].
  - destruct (mounted s) eqn:Hm; [now apply Released_handleFiles | exact R].
  - destruct (nth_error (pending s) k) as [t|] eqn:Hk; [|exact R].
    destruct t as [file url | jobId], a as [br | r]; cbn [resume]; try exact R.
    + rewrite exec_bind.
      eapply Released_view; [symmetry; apply handleFiles_downscaled_view|].
      eapply Released_view; [symmetry; apply downscaleImage_end_view|].
      now apply (Released_release s k file url).
    + eapply Released_view; [symmetry; apply settled_view|].
      eapply Released_view; [|exact R].
      unfold url_view. cbn.
      rewrite (temp_urls_remove_process k (pending s) jobId Hk).
      destruct s; reflexivity.
  - destruct (mounted s) eqn:Hm; [now apply Released_cleanup | exact R].
Qed.

Lemma Released_run (b : Build) (es : list Event) (s : State) :
  Inv s -> Released s -> Released (run b s es).
Proof.
  revert s. induction es as [|e es IH]; intros s I R; cbn; [exact R|].
  apply IH; [apply Inv_step, I | apply Released_step; assumption].
Qed.

(** X15.  In every run of either build, no object URL is ever revoked
    twice, only URLs that were created are revoked, and every URL created
    so far, the preview's and the downscaler's alike, is either revoked
    already, or still held by a downscale that has not finished, or the
    preview on display: nothing leaks. *)
Theorem object_urls_never_leak (b : Build) (es : list Event) :
  let s := run b init es in
  NoDup (revoked s)
  /\ Forall (fun u => (u < objectUrls s)%N) (revoked s)
  /\ forall u, (u < objectUrls s)%N ->
       In u (revoked s) \/ In u (temp_urls (pending s)) \/ displayed s u = true.
Proof.
  cbv zeta. pose proof (Inv_run b es init Inv_init) as I.
  pose proof (Released_run b es init Inv_init Released_init) as [R1 R2].
  split; [exact R1|]. split; [apply Forall_forall, (inv_fresh_revoked _ I)|].
  intros u Hu. destruct (R2 u Hu) as [H | [H | H]]; auto.
  pose proof (inv_count _ I) as Hc. rewrite Forall_forall in Hc.
  specialize (Hc u H).
  destruct (displayed (run b init es) u); [auto|].
  left. apply (count_occ_In N.eq_dec). lia.
Qed.

Lemma object_urls_never_leak_witness :
  let s := run OneFile init [Files (Some [mkBlob 1 "image/png" 1000]); Cleanup] in
  In 0%N (revoked s) \/ In 0%N (temp_urls (pending s)) \/ displayed s 0%N = true.
Proof.
  cbv zeta.
  apply (proj2 (proj2 (object_urls_never_leak OneFile
                         [Files (Some [mkBlob 1 "image/png" 1000]); Cleanup]))).
  reflexivity.
Defined.

(** ** The downscaler, further *)

Section Downscaler.
Local Open Scope Q_scope.

(** Over the bound both target sides lie between 1 and [maxSide]. *)
Lemma targets_within (maxSide : positive) (bitmap : ImageBitmap) :
  (Zpos maxSide < Z.max (Zpos (width bitmap)) (Zpos (height bitmap)))%Z ->
  (Z.max (Zpos (width bitmap)) (Zpos (height bitmap)) < 2 ^ 32)%Z ->
  strict_eq (scale_factor maxSide bitmap) 1 = false
  /\ (1 <= targetW maxSide bitmap <= Zpos maxSide)%Z
  /\ (1 <= targetH maxSide bitmap <= Zpos maxSide)%Z.
Proof.
  intros Hover Hm.
  set (w := Zpos (width bitmap)) in *. set (h := Zpos (height bitmap)) in *.
  set (m := Z.max w h) in *.
  assert (HM : (0 < Zpos maxSide)%Z) by reflexivity.
  destruct (quotient_below_one (Zpos maxSide) m HM Hover Hm) as [Hs0 Hs1].
  assert (Hscale : scale_factor maxSide bitmap
                   = js_div (inject_Z (Zpos maxSide)) (inject_Z m)).
  { unfold scale_factor, Math_min, Math_max. rewrite Qmax_inject_Z.
    fold w h m. apply Qmin_one_below, Hs1. }
  destruct (target_side w (Zpos maxSide) m HM Hover Hm) as [Bw _];
    [reflexivity | unfold m; lia |].
  destruct (target_side h (Zpos maxSide) m HM Hover Hm) as [Bh _];
    [reflexivity | unfold m; lia |].
  unfold targetW, targetH. rewrite Hscale. fold w h.
  split; [|split].
  - unfold strict_eq.
    destruct (Qeq_bool (js_div (inject_Z (Zpos maxSide)) (inject_Z m)) 1) eqn:E;
      [|reflexivity].
    apply Qeq_bool_iff in E. lra.
  - cbv zeta in Bw. split; [lia|].
    assert (w <= m)%Z by (unfold m; lia). nia.
  - cbv zeta in Bh. split; [lia|].
    assert (h <= m)%Z by (unfold m; lia). nia.
Qed.

(** X16.  Downscaling is idempotent in its dimensions: an image that has
    the size a first pass produced (for any original over the bound) is
    within the bound, so a second pass with the same [maxSide] returns the
    file it is given, untouched. *)
Theorem downscale_again_is_a_no_op
    (maxSide : positive) (bitmap : ImageBitmap)
    (file2 : Blob) (mime : string) (quality : Q) (url : Url) (br2 : Browser)
    (s : State) :
  (Zpos maxSide < Z.max (Zpos (width bitmap)) (Zpos (height bitmap)))%Z ->
  (Z.max (Zpos (width bitmap)) (Zpos (height bitmap)) < 2 ^ 32)%Z ->
  createImageBitmap br2
  = Fulfilled (mkBitmap (Z.to_pos (targetW maxSide bitmap))
                        (Z.to_pos (targetH maxSide bitmap))) ->
  downscaleImage_end file2 maxSide mime quality url br2 s
  = (Fulfilled file2, with_revoked (url :: revoked s) s).
Proof.
  intros Hover Hm Hdec.
  destruct (targets_within maxSide bitmap Hover Hm) as (_ & Hw & Hh).
  unfold downscaleImage_end, downscaleImage_try, bind, ret, revokeObjectURL, modify.
  rewrite Hdec, scale_is_one; [reflexivity|].
  cbn [width height]. rewrite !Z2Pos.id by lia. lia.
Qed.

Lemma downscale_again_is_a_no_op_witness :
  let file2 := mkBlob 8 "image/webp" 90000 in
  let br2 := mkBrowser (Fulfilled (mkBitmap 1536 1024)) true
                       (Fulfilled (mkBlob 9 "image/webp" 1)) None in
  fst (downscaleImage_end file2 1536 mime_default quality_default 5%N br2 init)
  = Fulfilled file2.
Proof.
  cbv zeta.
  rewrite (downscale_again_is_a_no_op 1536 (mkBitmap 3000 2000)
             (mkBlob 8 "image/webp" 90000) mime_default quality_default 5%N
             (mkBrowser (Fulfilled (mkBitmap 1536 1024)) true
                        (Fulfilled (mkBlob 9 "image/webp" 1)) None)
             init eq_refl eq_refl ltac:(vm_compute; reflexivity)).
  reflexivity.
Defined.

(** X17.  [downscaleImage] can fail in two ways only: the image cannot be
    decoded, or the image is over the bound, an OffscreenCanvas is used and
    its encoder rejects.  In particular it never fails for an image within
    the bound that decodes, nor on the DOM-canvas path, where a missing
    blob is replaced by the original file. *)
Theorem downscale_fails_only_in_decoder_or_encoder
    (file : Blob) (maxSide : positive) (mime : string) (quality : Q)
    (br : Browser) (s : State) (e : Thrown) :
  fst (downscaleImage_try file maxSide mime quality br s) = Rejected e ->
  createImageBitmap br = Rejected e
  \/ exists bitmap,
       createImageBitmap br = Fulfilled bitmap
       /\ (Zpos maxSide < Z.max (Zpos (width bitmap)) (Zpos (height bitmap)))%Z
       /\ hasOffscreenCanvas br = true
       /\ convertToBlob br = Rejected e.
Proof.
  unfold downscaleImage_try.
  destruct (createImageBitmap br) as [bitmap | e0] eqn:Hdec.
  - destruct (Z_lt_le_dec (Zpos maxSide)
                (Z.max (Zpos (width bitmap)) (Zpos (height bitmap)))) as [L | L].
    + destruct (strict_eq (scale_factor maxSide bitmap) 1); cbn; [discriminate|].
      destruct (hasOffscreenCanvas br); cbn; [|discriminate].
      intros H. right. exists bitmap. repeat split; try assumption; reflexivity.
    + rewrite (scale_is_one maxSide bitmap L). cbn. discriminate.
  - cbn. intros H. left. injection H as ->. reflexivity.
Qed.

Lemma downscale_fails_only_in_decoder_or_encoder_witness :
  let br := mkBrowser (Rejected (Error "InvalidStateError" "cannot decode"))
                      false (Fulfilled (mkBlob 9 "image/webp" 1)) None in
  createImageBitmap br = Rejected (Error "InvalidStateError" "cannot decode")
  \/ exists bitmap,
       createImageBitmap br = Fulfilled bitmap
       /\ (Zpos 1536 < Z.max (Zpos (width bitmap)) (Zpos (height bitmap)))%Z
       /\ hasOffscreenCanvas br = true
       /\ convertToBlob br = Rejected (Error "InvalidStateError" "cannot decode").
Proof.
  cbv zeta.
  apply (downscale_fails_only_in_decoder_or_encoder (mkBlob 1 "image/png" 10)
           1536 mime_default quality_default
           (mkBrowser (Rejected (Error "InvalidStateError" "cannot decode"))
                      false (Fulfilled (mkBlob 9 "image/webp" 1)) None)
           init (Error "InvalidStateError" "cannot decode")).
  reflexivity.
Defined.

End Downscaler.

Local Ltac resume_downscale :=
  cbv [exec bind ret get modify when downscaleImage_end downscaleImage_try
       new_canvas revokeObjectURL handleFiles_downscaled
       SudokuUploader.handleFiles_downscaled Monolith.handleFiles_downscaled
       Sudoku.handleImage submit console_warn abort_currentAbort next_job await
       setError setResult setIsProcessing].

(** X18.  An accepted image that is within the default bound (at most 1536
    pixels on its longer side) is processed exactly as uploaded: when its
    downscale step finishes, the processing function is called with the
    original file object under a new job id, no canvas has been created, no
    warning logged, and the downscaler's object URL is revoked. *)
Theorem small_image_is_processed_as_uploaded
    (b : Build) (s : State) (k : nat) (file : Blob) (url : Url)
    (br : Browser) (bitmap : ImageBitmap) :
  nth_error (pending s) k = Some (AwaitDownscale file url) ->
  createImageBitmap br = Fulfilled bitmap ->
  Z.max (Zpos (width bitmap)) (Zpos (height bitmap)) <= Zpos maxSide_default ->
  let s' := step b s (Settle k (Decoded br)) in
  calls s' = (file, (currentJob s + 1)%N) :: calls s
  /\ rasters s' = rasters s
  /\ warnings s' = warnings s
  /\ revoked s' = url :: revoked s.
Proof.
  intros Hk Hdec Hfit. cbv zeta. unfold step. rewrite Hk. cbn [resume].
  pose proof (scale_is_one maxSide_default bitmap Hfit) as Hone.
  destruct s as [pv ip rs er cj ca p ou rv ab wa cl ra pe mo ps].
  resume_downscale. rewrite Hdec, Hone.
  destruct b; destruct ca; cbn; repeat split; reflexivity.
Qed.

Lemma small_image_is_processed_as_uploaded_witness :
  let file := mkBlob 7 "image/png" 2048 in
  let br := mkBrowser (Fulfilled (mkBitmap 640 480)) true
                      (Fulfilled (mkBlob 9 "image/webp" 1)) None in
  let s := step Split init (Files (Some [file])) in
  calls (step Split s (Settle 0 (Decoded br))) = [(file, 1%N)].
Proof.
  cbv zeta.
  apply (proj1 (small_image_is_processed_as_uploaded Split
                  (step Split init (Files (Some [mkBlob 7 "image/png" 2048])))
                  0 (mkBlob 7 "image/png" 2048) 1%N
                  (mkBrowser (Fulfilled (mkBitmap 640 480)) true
                             (Fulfilled (mkBlob 9 "image/webp" 1)) None)
                  (mkBitmap 640 480) eq_refl eq_refl
                  ltac:(vm_compute; discriminate))).
Defined.

(** X19.  An accepted image over the default bound (with pixel dimensions
    below 2^32) is processed in its downscaled form: one canvas is created,
    and the processing function receives the blob the encoder produced;
    on the DOM-canvas path, when the encoder gives no blob, it receives the
    original file.  No warning is logged in these cases. *)
Theorem large_image_is_processed_downscaled
    (b : Build) (s : State) (k : nat) (file : Blob) (url : Url)
    (br : Browser) (bitmap : ImageBitmap) (blob : Blob) :
  nth_error (pending s) k = Some (AwaitDownscale file url) ->
  createImageBitmap br = Fulfilled bitmap ->
  Zpos maxSide_default < Z.max (Zpos (width bitmap)) (Zpos (height bitmap)) ->
  Z.max (Zpos (width bitmap)) (Zpos (height bitmap)) < 2 ^ 32 ->
  (if hasOffscreenCanvas br then convertToBlob br = Fulfilled blob
   else blob = match toBlob br with Some x => x | None => file end) ->
  let s' := step b s (Settle k (Decoded br)) in
  calls s' = (blob, (currentJob s + 1)%N) :: calls s
  /\ rasters s'
     = mkRaster (targetW maxSide_default bitmap) (targetH maxSide_default bitmap)
                mime_default quality_default :: rasters s
  /\ warnings s' = warnings s.
Proof.
  intros Hk Hdec Hover Hm Hblob. cbv zeta. unfold step. rewrite Hk. cbn [resume].
  destruct (targets_within maxSide_default bitmap Hover Hm) as (Hne & _ & _).
  destruct s as [pv ip rs er cj ca p ou rv ab wa cl ra pe mo ps].
  resume_downscale. rewrite Hdec, Hne.
  destruct (hasOffscreenCanvas br); [rewrite Hblob | subst blob];
    destruct b; destruct ca; cbn; repeat split; reflexivity.
Qed.

Lemma large_image_is_processed_downscaled_witness :
  let file := mkBlob 7 "image/jpeg" 4000000 in
  let small := mkBlob 9 "image/webp" 250000 in
  let br := mkBrowser (Fulfilled (mkBitmap 3000 2000)) true (Fulfilled small) None in
  let s := step OneFile init (Files (Some [file])) in
  calls (step OneFile s (Settle 0 (Decoded br))) = [(small, 1%N)].
Proof.
  cbv zeta.
  apply (proj1 (large_image_is_processed_downscaled OneFile
                  (step OneFile init (Files (Some [mkBlob 7 "image/jpeg" 4000000])))
                  0 (mkBlob 7 "image/jpeg" 4000000) 1%N
                  (mkBrowser (Fulfilled (mkBitmap 3000 2000)) true
                             (Fulfilled (mkBlob 9 "image/webp" 250000)) None)
                  (mkBitmap 3000 2000) (mkBlob 9 "image/webp" 250000)
                  eq_refl eq_refl eq_refl eq_refl eq_refl)).
Defined.

(** ** Disposal *)

(** X20.  In the one-file uploader, disposal cancels the job in flight but
    not an upload that is still in its downscale step: when that step
    finishes after the component is gone, a new job is minted and started
    all the same, the processing flag is raised, and the controller of that
    job is one that nothing has aborted. *)
Theorem disposal_does_not_stop_a_downscaling_upload
    (es : list Event) (k : nat) (file : Blob) (url : Url) (br : Browser) :
  let s := run OneFile init es in
  nth_error (pending s) k = Some (AwaitDownscale file url) ->
  let s' := run OneFile s [Cleanup; Settle k (Decoded br)] in
  mounted s' = false
  /\ currentJob s' = (currentJob s + 1)%N
  /\ isProcessing s' = true
  /\ currentAbort s' = Some (currentJob s')
  /\ ~ In (currentJob s') (aborted s')
  /\ List.length (calls s') = S (List.length (calls s)).
Proof.
  cbv zeta. pose proof (JobInv_run OneFile es init JobInv_init) as I.
  set (s := run OneFile init es) in *. intros Hk.
  pose proof (job_aborted_bound _ I) as Hab.
  pose proof (job_controller _ I) as Hc.
  destruct s as [pv ip rs er cj ca p ou rv ab wa cl ra pe mo ps].
  cbn in Hk, Hab, Hc.
  assert (Hnew : ~ In (cj + 1)%N ab) by (intros H; apply Hab in H; lia).
  assert (Hca : forall c, ca = Some c -> c <> (cj + 1)%N).
  { intros c ->. destruct (cj =? 0)%N; [discriminate|]. injection Hc as ->. lia. }
  cbn [run fold_left step mounted].
  destruct mo.
  - cbv [onCleanup Monolith.onCleanup previewCleanup exec bind ret get modify
         revokeObjectURL abort_currentAbort].
    destruct pv, ca as [c|]; cbn [snd fst with_mounted with_aborted with_revoked
      pending imagePreviewUrl currentAbort]; rewrite Hk; cbn [resume];
      resume_downscale;
      destruct (createImageBitmap br); try destruct (strict_eq _ 1);
      try destruct (hasOffscreenCanvas br); try destruct (convertToBlob br);
      cbn -[N.add]; repeat split; try reflexivity;
      try (intros [H | [H | H]]; [now apply (Hca c eq_refl) | now apply (Hca c eq_refl) | contradiction]);
      try exact Hnew.
  - cbn [pending]. rewrite Hk. cbn [resume]. resume_downscale.
    destruct ca as [c|];
      destruct (createImageBitmap br); try destruct (strict_eq _ 1);
      try destruct (hasOffscreenCanvas br); try destruct (convertToBlob br);
      cbn -[N.add]; repeat split; try reflexivity;
      try (intros [H | H]; [now apply (Hca c eq_refl) | contradiction]);
      try exact Hnew.
Qed.

Lemma disposal_does_not_stop_a_downscaling_upload_witness :
  let file := mkBlob 7 "image/png" 2048 in
  let br := mkBrowser (Fulfilled (mkBitmap 640 480)) true
                      (Fulfilled (mkBlob 9 "image/webp" 1)) None in
  let s' := run OneFile (run OneFile init [Files (Some [file])])
                [Cleanup; Settle 0 (Decoded br)] in
  mounted s' = false /\ isProcessing s' = true /\ currentJob s' = 1%N.
Proof.
  cbv zeta.
  pose proof (disposal_does_not_stop_a_downscaling_upload
                [Files (Some [mkBlob 7 "image/png" 2048])] 0
                (mkBlob 7 "image/png" 2048) 1%N
                (mkBrowser (Fulfilled (mkBitmap 640 480)) true
                           (Fulfilled (mkBlob 9 "image/webp" 1)) None)
                eq_refl) as H.
  cbv zeta in H. destruct H as (H1 & H2 & H3 & _).
  split; [exact H1 | split; [exact H3 | exact H2]].
Defined.

(** ** What the one-file uploader shows *)

(** The error and result right after [handleFiles] of the one-file uploader
    has looked at a file. *)
Lemma handleFiles_clears_result_and_error_aux
    (file : Blob) (rest : list Blob) (s : State) :
  let s' := exec (handleFiles OneFile (Some (file :: rest))) s in
  result s' = EmptyString
  /\ error s'
     = if negb (startsWith (type file) "image/")
       then "Please upload an image file (JPEG/PNG/WebP)."%string
       else if (MAX_BYTES <? size file)%N
            then "File is too large (> 10 MB)."%string
            else EmptyString.
Proof.
  cbv zeta. destruct s as [pv ip rs er cj ca p ou rv ab wa cl ra pe mo ps].
  cbv [exec handleFiles Monolith.handleFiles first_file
       bind ret get modify when setResult setError setImagePreviewUrl
       previewEffect createObjectURL downscaleImage_begin await
       revokeObjectURL];
  rewrite ?too_large_message;
  cbn -[MAX_BYTES N.ltb N.eqb startsWith N.add].
  destruct (startsWith (type file) "image/");
    destruct (MAX_BYTES <? size file)%N;
    cbn; try (split; reflexivity).
  destruct p as [u|]; cbn; try destruct (negb _); cbn; split; reflexivity.
Qed.

(** X21.  In the one-file uploader, as long as every processing call
    fulfils or is cancelled (all the stub can do), the error shown is at
    every moment either empty or one of the two validation messages: a
    failed downscale, a superseded or a cancelled job never puts anything in
    the error banner. *)
Theorem uploader_shows_only_validation_errors (es : list Event) :
  forallb stub_like es = true ->
  let err := error (run OneFile init es) in
  err = EmptyString
  \/ err = "Please upload an image file (JPEG/PNG/WebP)."%string
  \/ err = "File is too large (> 10 MB)."%string.
Proof.
  set (P := fun err : string =>
              err = EmptyString
              \/ err = "Please upload an image file (JPEG/PNG/WebP)."%string
              \/ err = "File is too large (> 10 MB)."%string).
  assert (H : forall s, P (error s) -> forallb stub_like es = true ->
                        P (error (run OneFile s es))).
  { induction es as [|e es IH]; intros s H Hes; cbn [run fold_left]; [exact H|].
    cbn [forallb] in Hes. apply andb_true_iff in Hes as [He Hes].
    apply IH; [|exact Hes]. destruct e as [files | k a |]; cbn [step].
    - destruct (mounted s); [|exact H].
      destruct files as [[|file rest]|]; try exact H.
      destruct (handleFiles_clears_result_and_error_aux file rest s) as [_ ->].
      unfold P. destruct (negb _); [auto|].
      destruct (MAX_BYTES <? size file)%N; auto.
    - destruct (nth_error (pending s) k) as [t|]; [|exact H].
      destruct t as [file url | jobId], a as [br | r]; cbn [resume]; try exact H.
      + destruct s as [pv ip rs er cj ca p ou rv ab wa cl ra pe mo ps].
        cbn in H. resume_downscale.
        destruct (createImageBitmap br); try destruct (strict_eq _ 1);
          try destruct (hasOffscreenCanvas br); try destruct (convertToBlob br);
          destruct ca; exact H.
      + destruct s as [pv ip rs er cj ca p ou rv ab wa cl ra pe mo ps].
        cbn in H. cbn [stub_like] in He.
        cbv [exec settled bind ret get modify when setResult setError
             setIsProcessing].
        destruct r as [res | e]; cbn -[N.eqb name_is message_or].
        * destruct (jobId =? cj)%N eqn:E; cbn -[N.eqb]; rewrite ?E; exact H.
        * rewrite He. cbn -[N.eqb].
          destruct (jobId =? cj)%N; exact H.
    - destruct (mounted s); [|exact H].
      destruct s as [pv ip rs er cj ca p ou rv ab wa cl ra pe mo ps].
      cbv [exec onCleanup Monolith.onCleanup previewCleanup bind ret get modify
           revokeObjectURL abort_currentAbort].
      destruct pv, ca; exact H. }
  intros Hes. apply H; [left; reflexivity | exact Hes].
Qed.

Lemma uploader_shows_only_validation_errors_witness :
  let err := error (run OneFile init
                      [Files (Some [mkBlob 1 "image/png" 1000]);
                       Files (Some [mkBlob 2 "image/png" 99999999])]) in
  err = EmptyString
  \/ err = "Please upload an image file (JPEG/PNG/WebP)."%string
  \/ err = "File is too large (> 10 MB)."%string.
Proof.
  cbv zeta.
  apply (uploader_shows_only_validation_errors
           [Files (Some [mkBlob 1 "image/png" 1000]);
            Files (Some [mkBlob 2 "image/png" 99999999])]).
  reflexivity.
Defined.
